(** * AID-Emulator: the turn engine, the story-card registry and the hook loaders

    A shallow embedding of
      - Parameters.js   (shared world state and the story-card functions),
      - Loader.js and sandboxLoader.js (the two hook loaders),
      - emulator.js     (the two-party turn state machine),
    followed by the theorems that relate the code to its specification.

    Conventions.  A JavaScript string is a [string] whose characters stand
    for the UTF-16 code units below 256.  Shared mutable objects ([history],
    [storyCards], [state]) live in one [World] record that is threaded
    through every call, so a mutation made by a hook is seen by the engine
    afterwards.  Code that can throw runs in the monad [Eff], whose state
    survives an abrupt completion, as a JavaScript heap does.  The renderer
    and the DOM wiring only write to the page and are left out. *)

From Stdlib Require Import ZArith Ascii String Lia.
From stdpp Require Import base option list strings.

Set Warnings "-register-all".

Local Open Scope string_scope.
Local Open Scope Z_scope.
Local Open Scope list_scope.

(** ** JavaScript strings *)

Module Js.

Definition dquote : ascii := "034"%char.
Definition backslash : ascii := "092"%char.
Definition newline : ascii := "010"%char.
Definition nl : string := String newline "".

(** [WhiteSpace] and [LineTerminator] code units below 256: what
    [String.prototype.trim] strips and what [\s] matches. *)
Definition is_space (c : ascii) : bool :=
  let n := N_of_ascii c in
  ((9 <=? n) && (n <=? 13) || (n =? 32) || (n =? 160))%N.

Fixpoint trimStart (s : string) : string :=
  match s with
  | String c s' => if is_space c then trimStart s' else s
  | EmptyString => EmptyString
  end.

(** Drops trailing white space: a character is kept when something that
    survives follows it or when it is not white space itself. *)
Fixpoint trimEnd (s : string) : string :=
  match s with
  | String c s' =>
      match trimEnd s' with
      | EmptyString => if is_space c then EmptyString else String c EmptyString
      | t => String c t
      end
  | EmptyString => EmptyString
  end.

Definition trim (s : string) : string := trimEnd (trimStart s).

(** Truthiness of a string: only the empty string is falsy. *)
Definition truthy_string (s : string) : bool :=
  match s with EmptyString => false | _ => true end.

(** [a || b] on strings. *)
Definition or_string (a b : string) : string :=
  if truthy_string a then a else b.

(** [Array.prototype.join]. *)
Definition join (sep : string) (l : list string) : string :=
  String.concat sep l.

(** *** Values a hook may hand back *)

Inductive Value :=
| VUndefined
| VNull
| VBool (b : bool)
| VNumber (n : Z)
| VString (s : string)
| VObject (fields : list (string * Value)).

Definition truthy (v : Value) : bool :=
  match v with
  | VUndefined | VNull => false
  | VBool b => b
  | VNumber n => negb (n =? 0)
  | VString s => truthy_string s
  | VObject _ => true
  end.

Fixpoint assoc (k : string) (fields : list (string * Value)) : Value :=
  match fields with
  | [] => VUndefined
  | (k', v) :: rest => if String.eqb k k' then v else assoc k rest
  end.

(** [v.k] for a [v] that is neither [undefined] nor [null]: primitives
    have no own property of that name. *)
Definition get (v : Value) (k : string) : Value :=
  match v with
  | VObject fields => assoc k fields
  | _ => VUndefined
  end.

Inductive TypeTag := TUndefined | TObject | TBoolean | TNumber | TString.

Definition typeof (v : Value) : TypeTag :=
  match v with
  | VUndefined => TUndefined
  | VNull => TObject
  | VBool _ => TBoolean
  | VNumber _ => TNumber
  | VString _ => TString
  | VObject _ => TObject
  end.

(** *** Thrown values

    An error object, any other value that converts to a string, or a value
    whose conversion to a string throws [TypeError(why)]: a Symbol, an
    object without a usable [toString]. *)

Inductive Exn :=
| mkExn (exn_name exn_message : string)
| Thrown (v : Value)
| Unprintable (why : string).

(** [new Error(message)] *)
Definition Error (message : string) : Exn := mkExn "Error" message.

(** The [TypeError] that the engine itself raises. *)
Definition TypeError (message : string) : Exn := mkExn "TypeError" message.

(** *** [JSON.stringify] on an array of strings *)

Definition hex_digit (n : N) : ascii :=
  match n with
  | 0 => "0" | 1 => "1" | 2 => "2" | 3 => "3" | 4 => "4" | 5 => "5"
  | 6 => "6" | 7 => "7" | 8 => "8" | 9 => "9" | 10 => "a" | 11 => "b"
  | 12 => "c" | 13 => "d" | 14 => "e" | _ => "f"
  end%N%char.

(** [QuoteJSONString], one code unit at a time. *)
Definition quote_char (c : ascii) : string :=
  let n := N_of_ascii c in
  match n with
  | 8 => String backslash "b"
  | 9 => String backslash "t"
  | 10 => String backslash "n"
  | 12 => String backslash "f"
  | 13 => String backslash "r"
  | 34 => String backslash (String dquote "")
  | 92 => String backslash (String backslash "")
  | _ =>
      if (n <? 32)%N
      then String backslash
             (String "u" (String "0" (String "0"
               (String (hex_digit (n / 16)) (String (hex_digit (n mod 16)) "")))))
      else String c ""
  end%N.

Fixpoint quote_body (s : string) : string :=
  match s with
  | EmptyString => EmptyString
  | String c s' => quote_char c +:+ quote_body s'
  end.

Definition quote (s : string) : string :=
  String dquote (quote_body s +:+ String dquote "").

Definition stringify (keys : list string) : string :=
  "[" +:+ join "," (map quote keys) +:+ "]".

End Js.

(** ** Completions and the effect monad *)

Inductive Completion (A : Type) :=
| Normal (a : A)
| Abrupt (e : Js.Exn).
Arguments Normal {A} a.
Arguments Abrupt {A} e.

Definition Eff (S A : Type) : Type := S -> Completion A * S.

Definition ret {S A} (a : A) : Eff S A := fun s => (Normal a, s).

Definition throw {S A} (e : Js.Exn) : Eff S A := fun s => (Abrupt e, s).

Definition bind {S A B} (m : Eff S A) (k : A -> Eff S B) : Eff S B :=
  fun s =>
    match m s with
    | (Normal a, s') => k a s'
    | (Abrupt e, s') => (Abrupt e, s')
    end.

(** [try { m } catch (err) { h err }] *)
Definition try_catch {S A} (m : Eff S A) (h : Js.Exn -> Eff S A) : Eff S A :=
  fun s =>
    match m s with
    | (Normal a, s') => (Normal a, s')
    | (Abrupt e, s') => h e s'
    end.

Definition gets {S A} (f : S -> A) : Eff S A := fun s => (Normal (f s), s).

(** A thrown value inside a template literal: the text goes to the log,
    and the conversion throws when the value has no string form. *)
Definition template_of {S} (err : Js.Exn) : Eff S unit :=
  match err with
  | Js.Unprintable why => throw (Js.TypeError why)
  | _ => ret tt
  end.

(** [err.message] for a caught value: reading a property of [undefined] or
    [null] throws. *)
Definition message_of {S} (err : Js.Exn) : Eff S unit :=
  match err with
  | Js.Thrown Js.VUndefined | Js.Thrown Js.VNull =>
      throw (Js.TypeError "Cannot read properties of undefined")
  | _ => ret tt
  end.

Definition modify {S} (f : S -> S) : Eff S unit := fun s => (Normal tt, f s).

Notation "'let*' x ':=' m 'in' k" := (bind m (fun x => k))
  (at level 10, x name, m at level 100, k at level 200).
Notation "m ';;' k" := (bind m (fun _ => k))
  (at level 100, k at level 200, right associativity).

(** ** Parameters.js: the shared world state *)

Module Parameters.

(** An action of the conversation.  [text] is [None] when the engine stored
    [undefined]. *)
Record HistoryEntry := { mode : string; text : option string }.

Record StoryCard := {
  id : Z;
  keys : list string;
  entry : string;
  type : string
}.

(** [state.memory].  [transformedContext] is not a property of the object
    literal in Parameters.js: it reads as [undefined], here [None], until
    somebody assigns it. *)
Record Memory := {
  context : string;
  authorsNote : string;
  frontMemory : string;
  transformedContext : option string
}.

(** The persistent arbitrary state object: [memory] and whatever else a
    script stores on it. *)
Record State := { memory : Memory; others : list (string * Js.Value) }.

Record World := {
  history : list HistoryEntry;
  storyCards : list StoryCard;
  state : State
}.

(** The module as first loaded. *)
Definition fresh : World :=
  {| history := [];
     storyCards := [];
     state := {| memory := {| context := ""; authorsNote := ""; frontMemory := "";
                              transformedContext := None |};
                 others := [] |} |}.

Definition set_history (f : list HistoryEntry -> list HistoryEntry) (w : World) : World :=
  {| history := f (history w); storyCards := storyCards w; state := state w |}.

Definition set_storyCards (f : list StoryCard -> list StoryCard) (w : World) : World :=
  {| history := history w; storyCards := f (storyCards w); state := state w |}.

Definition set_frontMemory (v : string) (w : World) : World :=
  let m := memory (state w) in
  {| history := history w;
     storyCards := storyCards w;
     state := {| memory := {| context := context m; authorsNote := authorsNote m;
                              frontMemory := v;
                              transformedContext := transformedContext m |};
                 others := others (state w) |} |}.

(** [array.push(x)] *)
Definition push {A} (x : A) (l : list A) : list A := l ++ [x].

(** [array.length] as a JavaScript number *)
Definition len {A} (l : list A) : Z := Z.of_nat (length l).

(** [addStoryCard(keys, entry, type = "general")]: [type] is [None] when the
    argument is left out. *)
Definition addStoryCard (keys : list string) (entry : string) (type : option string)
  : Eff World Js.Value :=
  let type := default "general" type in
  let keyString := Js.stringify keys in
  let* exists_ :=
    gets (fun w => existsb (fun card => String.eqb (Js.stringify (Parameters.keys card)) keyString)
                           (storyCards w)) in
  if exists_ : bool then ret (Js.VBool false)
  else
    let* newCard :=
      gets (fun w => {| id := len (storyCards w); keys := keys; entry := entry; type := type |}) in
    modify (set_storyCards (push newCard)) ;;
    gets (fun w => Js.VNumber (len (storyCards w) - 1)).

(** [removeStoryCard(index)]; [splice(index, 1)] on an index in range. *)
Definition removeStoryCard (index : Z) : Eff World unit :=
  let* n := gets (fun w => len (storyCards w)) in
  if (index <? 0) || (index >=? n) then throw (Js.Error "Story card does not exist")
  else modify (set_storyCards (delete (Z.to_nat index))).

(** [updateStoryCard(index, keys, entry, type = "general")] *)
Definition updateStoryCard (index : Z) (keys : list string) (entry : string)
    (type : option string) : Eff World unit :=
  let type := default "general" type in
  let* n := gets (fun w => len (storyCards w)) in
  if (index <? 0) || (index >=? n) then throw (Js.Error "Story card does not exist")
  else
    modify (set_storyCards
              <[Z.to_nat index := {| id := index; keys := keys; entry := entry; type := type |}]>).

End Parameters.

(** ** What a hook invocation sees, and what the engine needs of a loader *)

Module Hook.

(** The object built by [getHookGlobals].  [state], [history],
    [storyCards] and the three story-card functions are references into the
    [World] that the call is run in; only [text] is a value of its own. *)
Record Globals := { text : string }.

(** [Object.keys(globals)] *)
Definition keys (_ : Globals) : list string :=
  ["state"; "text"; "history"; "storyCards";
   "addStoryCard"; "removeStoryCard"; "updateStoryCard"].

(** The exports of a loader module. *)
Record Loader := {
  runInputModifier : Globals -> Eff Parameters.World Js.Value;
  runContextModifier : Globals -> Eff Parameters.World Js.Value;
  runOutputModifier : Globals -> Eff Parameters.World Js.Value
}.

(** A fetched resource: [resp.ok], [resp.statusText], [await resp.text()]. *)
Record Response := { ok : bool; statusText : string; body : string }.

(** The browser, as far as a loader uses it: [fetch], which may reject, and
    [new Function('globals', source)(globals)]. *)
Record Browser := {
  fetch : string -> Completion Response;
  evaluate : string -> Globals -> Eff Parameters.World Js.Value
}.

Definition await {S A} (c : Completion A) : Eff S A := fun s => (c, s).

End Hook.

(** ** Evaluation of an assembled sandbox function

    The body handed to [new Function] is text.  Its evaluation is described
    for bodies of one shape only: text that declares and does nothing else
    when it is run (the library, the definition of [modifier], comments),
    for which [Source] stands, and the few statements that call [modifier]
    or move its result.  A hook file whose text before its final call calls
    [modifier] itself, assigns [globals.__modifierReturn], or comments out
    what follows it is outside this description: [run] says nothing of
    it. *)

Module Sandbox.

Inductive Space := Tab | LF | VT | FF | CR | SP | NBSP.

Definition space_char (s : Space) : ascii :=
  match s with
  | Tab => "009" | LF => "010" | VT => "011" | FF => "012" | CR => "013"
  | SP => "032" | NBSP => "160"
  end%char.

Fixpoint spaces (l : list Space) : string :=
  match l with
  | [] => ""
  | s :: l' => String (space_char s) (spaces l')
  end.

(** The ways to write the trailing call [modifier(text)]. *)
Record CallSyntax := {
  sp1 : list Space; sp2 : list Space; sp3 : list Space; sp4 : list Space;
  semicolon : bool;
  sp5 : list Space
}.

Definition render_call (c : CallSyntax) : string :=
  "modifier" +:+ spaces (sp1 c) +:+ "(" +:+ spaces (sp2 c) +:+ "text" +:+ spaces (sp3 c)
  +:+ ")" +:+ spaces (sp4 c) +:+ (if semicolon c then ";" else "") +:+ spaces (sp5 c).

Inductive Stmt :=
| Source (src : string)      (* text that only declares, and comments *)
| AssignGlobalThis           (* Object.assign(globalThis, globals); *)
| Call (c : CallSyntax)      (* modifier(text)   as a statement *)
| CaptureCall                (* __modifierReturn = modifier(text); *)
| ReturnCaptured.            (* return globals.__modifierReturn; *)

Definition render_stmt (s : Stmt) : string :=
  match s with
  | Source src => src
  | AssignGlobalThis => "Object.assign(globalThis, globals);"
  | Call c => render_call c
  | CaptureCall => "__modifierReturn = modifier(text);"
  | ReturnCaptured => "return globals.__modifierReturn;"
  end.

Fixpoint render (p : list Stmt) : string :=
  match p with
  | [] => ""
  | s :: p' => render_stmt s +:+ render p'
  end.

(** One activation of the sandbox function.  [modifierCalls] counts the
    calls of [modifier]; the two slots are the property [__modifierReturn]
    of the global object and of the [globals] argument. *)
Record Frame := {
  modifierCalls : nat;
  globalThis_modifierReturn : Js.Value;
  globals_modifierReturn : Js.Value
}.

Definition enter : Frame :=
  {| modifierCalls := 0;
     globalThis_modifierReturn := Js.VUndefined;
     globals_modifierReturn := Js.VUndefined |}.

Definition counted (f : Frame) : Frame :=
  {| modifierCalls := S (modifierCalls f);
     globalThis_modifierReturn := globalThis_modifierReturn f;
     globals_modifierReturn := globals_modifierReturn f |}.

Definition set_globalThis_modifierReturn (v : Js.Value) (f : Frame) : Frame :=
  {| modifierCalls := modifierCalls f;
     globalThis_modifierReturn := v;
     globals_modifierReturn := globals_modifierReturn f |}.

Section Run.

(** The function that the hook source declares under the name [modifier]. *)
Variable modifier : string -> Eff Parameters.World Js.Value.
Variable globals : Hook.Globals.

Definition callModifier : Eff (Frame * Parameters.World) Js.Value :=
  fun '(f, w) =>
    let '(r, w') := modifier (Hook.text globals) w in (r, (counted f, w')).

Fixpoint run (p : list Stmt) : Eff (Frame * Parameters.World) Js.Value :=
  match p with
  | [] => ret Js.VUndefined
  | Source _ :: p' => run p'
  | AssignGlobalThis :: p' =>
      modify (fun '(f, w) =>
                (set_globalThis_modifierReturn (globals_modifierReturn f) f, w)) ;;
      run p'
  | Call _ :: p' => callModifier ;; run p'
  | CaptureCall :: p' =>
      let* v := callModifier in
      (* an assignment to a name that is no local binding lands on the
         global object *)
      modify (fun '(f, w) => (set_globalThis_modifierReturn v f, w)) ;;
      run p'
  | ReturnCaptured :: _ => gets (fun '(f, _) => globals_modifierReturn f)
  end.

(** [sandboxFunc(globals)] *)
Definition invoke (p : list Stmt) (w : Parameters.World)
  : Completion Js.Value * (Frame * Parameters.World) :=
  run p (enter, w).

End Run.

End Sandbox.

(** ** Loader.js

    The loader whose file opens with the comment [// Loader.js]: it fetches
    [../Script/Library.js] and the hook file, and turns the hook file's
    trailing call into a [return] with a pattern. *)

Module Loader.

(** [strip p s] is the rest of [s] after its prefix [p], if [s] starts
    with [p]. *)
Fixpoint strip (p s : string) : option string :=
  match p, s with
  | EmptyString, _ => Some s
  | String a p', String b s' => if Ascii.eqb a b then strip p' s' else None
  | String _ _, EmptyString => None
  end.

(** Does the whole of [s] match [modifier\s*\(\s*text\s*\)\s*;?\s*] ?
    White space and the literal that follows it never overlap, so the
    greedy reading is the only one. *)
Definition trailing_call (s : string) : bool :=
  match strip "modifier" s with
  | None => false
  | Some s1 =>
  match strip "(" (Js.trimStart s1) with
  | None => false
  | Some s2 =>
  match strip "text" (Js.trimStart s2) with
  | None => false
  | Some s3 =>
  match strip ")" (Js.trimStart s3) with
  | None => false
  | Some s4 =>
      let s5 := Js.trimStart s4 in
      let s6 := match strip ";" s5 with Some r => r | None => s5 end in
      negb (Js.truthy_string (Js.trimStart s6))
  end end end end.

(** [src.replace(/modifier\s*\(\s*text\s*\)\s*;?\s*$/, 'return modifier(text);')]:
    the leftmost position from which the rest of the text matches. *)
Fixpoint replace_trailing_call (s : string) : string :=
  if trailing_call s then "return modifier(text);"
  else
    match s with
    | EmptyString => EmptyString
    | String c s' => String c (replace_trailing_call s')
    end.

Definition globalsCode (globals : Hook.Globals) : string :=
  Js.join Js.nl
    (map (fun key => "let " +:+ key +:+ " = globals[" +:+ String Js.dquote key
                     +:+ String Js.dquote "];")
         (Hook.keys globals)).

(** The text between the pieces of the function body. *)
Definition head_text : string :=
  Js.nl +:+ "    // --- Inject emulator globals as local variables" +:+ Js.nl +:+ "    ".
Definition library_text : string :=
  Js.nl +:+ Js.nl +:+ "    // --- Execute Library.js first" +:+ Js.nl +:+ "    ".
Definition modifier_text : string :=
  Js.nl +:+ "    " +:+ Js.nl +:+ "    // --- Then execute modifier file (with capture)"
  +:+ Js.nl +:+ "    ".
Definition tail_text : string := Js.nl +:+ "  ".

Definition sandboxSource (globalsCode librarySource modifierSource : string) : string :=
  head_text +:+ globalsCode +:+ library_text +:+ librarySource
  +:+ modifier_text +:+ modifierSource +:+ tail_text.

Section Load.

Variable browser : Hook.Browser.

Definition loadModifier (modifierPath : string) (globals : Hook.Globals)
  : Eff Parameters.World Js.Value :=
  let* libResp := Hook.await (Hook.fetch browser "../Script/Library.js") in
  let* modResp := Hook.await (Hook.fetch browser modifierPath) in
  if negb (Hook.ok libResp)
  then throw (Js.Error ("Failed to load Library.js: " +:+ Hook.statusText libResp))
  else if negb (Hook.ok modResp)
  then throw (Js.Error ("Failed to load " +:+ modifierPath +:+ ": " +:+ Hook.statusText modResp))
  else
    let librarySource := Hook.body libResp in
    let modifierSource := replace_trailing_call (Hook.body modResp) in
    Hook.evaluate browser
      (sandboxSource (globalsCode globals) librarySource modifierSource) globals.

Definition runInputModifier := loadModifier "../Script/Input.js".
Definition runContextModifier := loadModifier "../Script/Context.js".
Definition runOutputModifier := loadModifier "../Script/Output.js".

Definition exports : Hook.Loader :=
  {| Hook.runInputModifier := runInputModifier;
     Hook.runContextModifier := runContextModifier;
     Hook.runOutputModifier := runOutputModifier |}.

End Load.

End Loader.

(** ** sandboxLoader.js

    The loader whose file opens with the comment [// sandboxLoader.js]: it
    fetches [./Library.js] and the hook file, and appends a capturing call
    to the hook file. *)

Module SandboxLoader.

Definition capture_text : string := Js.nl +:+ "__modifierReturn = modifier(text);".

Definition head_text : string :=
  Js.nl +:+ "    // Spread all provided globals onto globalThis" +:+ Js.nl +:+ "    ".
Definition library_text : string :=
  Js.nl +:+ Js.nl +:+ "    // --- Execute Library.js first" +:+ Js.nl +:+ "    ".
Definition modifier_text : string :=
  Js.nl +:+ Js.nl +:+ "    // --- Then execute modifier.js (with capture)" +:+ Js.nl +:+ "    ".
Definition return_text : string :=
  Js.nl +:+ Js.nl +:+ "    // --- Return captured modifier result" +:+ Js.nl +:+ "    ".
Definition tail_text : string := Js.nl +:+ "  ".

Definition sandboxSource (librarySource modifierSource : string) : string :=
  head_text +:+ "Object.assign(globalThis, globals);" +:+ library_text +:+ librarySource
  +:+ modifier_text +:+ modifierSource
  +:+ return_text +:+ "return globals.__modifierReturn;" +:+ tail_text.

Section Load.

Variable browser : Hook.Browser.

(** Step 3, [if (!globals.__modifierReturn) globals.__modifierReturn =
    undefined], leaves the property [undefined] either way: the activation
    starts from [Sandbox.enter]. *)
Definition loadModifier (modifierPath : string) (globals : Hook.Globals)
  : Eff Parameters.World Js.Value :=
  let* libResp := Hook.await (Hook.fetch browser "./Library.js") in
  let* modResp := Hook.await (Hook.fetch browser modifierPath) in
  if negb (Hook.ok libResp)
  then throw (Js.Error ("Failed to load Library.js: " +:+ Hook.statusText libResp))
  else if negb (Hook.ok modResp)
  then throw (Js.Error ("Failed to load " +:+ modifierPath +:+ ": " +:+ Hook.statusText modResp))
  else
    let librarySource := Hook.body libResp in
    let modifierSource := Hook.body modResp +:+ capture_text in
    Hook.evaluate browser (sandboxSource librarySource modifierSource) globals.

Definition runInputModifier := loadModifier "./Input.js".
Definition runContextModifier := loadModifier "./Context.js".
Definition runOutputModifier := loadModifier "./Output.js".

Definition exports : Hook.Loader :=
  {| Hook.runInputModifier := runInputModifier;
     Hook.runContextModifier := runContextModifier;
     Hook.runOutputModifier := runOutputModifier |}.

End Load.

(** The body assembled from a hook source that is [decls], text that only
    declares, followed by the trailing call [c], read as statements. *)
Definition program (librarySource decls : string) (c : Sandbox.CallSyntax)
  : list Sandbox.Stmt :=
  [Sandbox.Source head_text; Sandbox.AssignGlobalThis;
   Sandbox.Source library_text; Sandbox.Source librarySource;
   Sandbox.Source modifier_text; Sandbox.Source decls; Sandbox.Call c;
   Sandbox.Source Js.nl; Sandbox.CaptureCall;
   Sandbox.Source return_text; Sandbox.ReturnCaptured; Sandbox.Source tail_text].

End SandboxLoader.

(** ** emulator.js: the turn engine *)

Module Emulator.

Inductive Side := user | ai.

(** The fields of the [Emulator] object that the turn logic uses.
    [hookCalls] is not a field of the class: it lists, oldest first, the
    loader calls made so far with the text each was given, so that what a
    hook was handed can be stated. *)
Record Emulator := {
  currentSide : Side;
  selectedMode : string;
  hookCalls : list (string * string)
}.

Definition Machine : Type := Emulator * Parameters.World.

Definition with_side (s : Side) (e : Emulator) : Emulator :=
  {| currentSide := s; selectedMode := selectedMode e; hookCalls := hookCalls e |}.

Definition with_call (name arg : string) (e : Emulator) : Emulator :=
  {| currentSide := currentSide e; selectedMode := selectedMode e;
     hookCalls := hookCalls e ++ [(name, arg)] |}.

Definition set_currentSide (s : Side) : Eff Machine unit :=
  modify (fun '(e, w) => (with_side s e, w)).

Definition note_call (name arg : string) : Eff Machine unit :=
  modify (fun '(e, w) => (with_call name arg e, w)).

(** Code that only knows the imported world, run from inside the engine. *)
Definition in_world {A} (m : Eff Parameters.World A) : Eff Machine A :=
  fun '(e, w) => let '(r, w') := m w in (r, (e, w')).

Definition history_push (h : Parameters.HistoryEntry) : Eff Machine unit :=
  in_world (modify (Parameters.set_history (Parameters.push h))).

(** What [handleInput] leaves for the page: nothing when the input was
    ignored, else the argument of [renderer_updateMainView]. *)
Inductive View := Ignored | MainView (context : option string).

(** A template literal around a text that may be [undefined]. *)
Definition template (t : option string) : string := default "undefined" t.

(** [mode || this.selectedMode || "say"], [mode] being [None] when left
    out. *)
Definition fallback_mode (mode : option string) (selected : string) : string :=
  Js.or_string (Js.or_string (default "" mode) selected) "say".

Definition getHookGlobals (arg : string) : Hook.Globals := {| Hook.text := arg |}.

Section Engine.

Variable loader : Hook.Loader.

(** The [switch] of [safeCallHook]: the loader function for a hook name,
    [None] for the [default] branch. *)
Definition dispatch (name : string)
  : option (Hook.Globals -> Eff Parameters.World Js.Value) :=
  if String.eqb name "inputModifier" then Some (Hook.runInputModifier loader)
  else if String.eqb name "contextModifier" then Some (Hook.runContextModifier loader)
  else if String.eqb name "outputModifier" then Some (Hook.runOutputModifier loader)
  else None.

(** [safeCallHook(name, arg)]: call a hook inside [try]/[catch], with the
    argument as the fallback.  The [catch] first builds its log line from
    the caught value, which can throw in its turn. *)
Definition safeCallHook (name arg : string) : Eff Machine string :=
  try_catch
    (let globals := getHookGlobals arg in
     match dispatch name with
     | None => ret arg
     | Some run =>
         note_call name arg ;;
         let* result := in_world (run globals) in
         (* result && typeof result.text === "string" *)
         if Js.truthy result then
           match Js.get result "text" with
           | Js.VString s => ret s
           | _ => ret arg
           end
         else ret arg
     end)
    (fun err => template_of err ;; ret arg).

(** The [catch] of [processInput] logs [err.message] and ends the function
    without a [return]: the caller gets [undefined]. *)
Definition processInput (mode rawText : string) : Eff Machine (option string) :=
  try_catch
    (let* modified := safeCallHook "inputModifier" rawText in
     ret (Some modified))
    (fun err => message_of err ;; ret None).

Definition processOutput (rawText : string) : Eff Machine (option string) :=
  try_catch
    (let* modified := safeCallHook "outputModifier" rawText in
     ret (Some modified))
    (fun err => message_of err ;; ret None).

(** [processContext()]: the raw context is rebuilt from the whole of
    [history], [frontMemory] is reset, and the context hook's output is
    returned. *)
Definition processContext : Eff Machine string :=
  let* rawContext :=
    gets (fun '(_, w) =>
            Js.join Js.nl (map (fun h => template (Parameters.text h)) (Parameters.history w))) in
  in_world (modify (Parameters.set_frontMemory "")) ;;
  let* aiContext := safeCallHook "contextModifier" rawContext in
  ret aiContext.

(** [handleInput(mode, text)].  [text] is a string, so the coercion of the
    first statement leaves it alone, and the wait for [_initPromise] is over
    once [new] has returned.  The mode that the fallback yields goes to
    [processInput], which logs it; both branches store the mode [""].
    [processContext] is called outside any [try]: what it throws ends the
    call. *)
Definition handleInput (mode : option string) (text : string) : Eff Machine View :=
  let* selected := gets (fun '(e, _) => selectedMode e) in
  let mode := fallback_mode mode selected in
  if negb (Js.truthy_string (Js.trim text)) then ret Ignored
  else
    let* side := gets (fun '(e, _) => currentSide e) in
    match side with
    | user =>
        let* newText := processInput mode text in
        history_push {| Parameters.mode := ""; Parameters.text := newText |} ;;
        let* context := processContext in
        set_currentSide ai ;;
        ret (MainView (Some context))
    | ai =>
        let* newText := processOutput text in
        history_push {| Parameters.mode := ""; Parameters.text := newText |} ;;
        set_currentSide user ;;
        ret (MainView None)
    end.

End Engine.

(** [init()]: the wiring and the first render aside, one push. *)
Definition init : Eff Machine unit :=
  history_push {| Parameters.mode := "start";
                  Parameters.text := Some "=== New Session Started ===" |}.

(** [new Emulator()]: the constructor sets the fields and starts [init],
    which has no [await] in it and so has run when the constructor
    returns.  [handleInput] waits for it in any case. *)
Definition new (w : Parameters.World) : Machine :=
  snd (init ({| currentSide := user; selectedMode := "say"; hookCalls := [] |}, w)).

(** A run of calls to [handleInput], oldest first. *)
Fixpoint turns (loader : Hook.Loader) (inputs : list (option string * string))
    (m : Machine) : Machine :=
  match inputs with
  | [] => m
  | (mode, text) :: rest => turns loader rest (snd (handleInput loader mode text m))
  end.

(** The hooks of the scenarios: [modifier] hands back [{ text }]. *)
Definition identity_hook (g : Hook.Globals) : Eff Parameters.World Js.Value :=
  ret (Js.VObject [("text", Js.VString (Hook.text g))]).

Definition identity_loader : Hook.Loader :=
  {| Hook.runInputModifier := identity_hook;
     Hook.runContextModifier := identity_hook;
     Hook.runOutputModifier := identity_hook |}.

End Emulator.

(** ** Reading back a quoted JSON string

    The inverse of [Js.quote_body], used to show that [Js.stringify] tells
    any two key sequences apart. *)

Module JsonRead.

Definition hex_value (c : ascii) : option N :=
  match N_of_ascii c with
  | 48 => Some 0 | 49 => Some 1 | 50 => Some 2 | 51 => Some 3 | 52 => Some 4
  | 53 => Some 5 | 54 => Some 6 | 55 => Some 7 | 56 => Some 8 | 57 => Some 9
  | 97 => Some 10 | 98 => Some 11 | 99 => Some 12 | 100 => Some 13
  | 101 => Some 14 | 102 => Some 15
  | _ => None
  end%N.

(** The character a two-character escape stands for. *)
Definition unescape (c : ascii) : option ascii :=
  match N_of_ascii c with
  | 98 => Some "008" | 116 => Some "009" | 110 => Some "010"
  | 102 => Some "012" | 114 => Some "013"
  | 34 => Some Js.dquote | 92 => Some Js.backslash
  | _ => None
  end%N%char.

Definition cons_read (c : ascii) (r : option (string * string)) : option (string * string) :=
  match r with
  | Some (t, rest) => Some (String c t, rest)
  | None => None
  end.

(** Reads up to the closing quote: the string read and what follows the
    quote. *)
Fixpoint read_quoted (s : string) : option (string * string) :=
  match s with
  | EmptyString => None
  | String c s1 =>
      if Ascii.eqb c Js.dquote then Some (EmptyString, s1)
      else if Ascii.eqb c Js.backslash then
        match s1 with
        | EmptyString => None
        | String e s2 =>
            if Ascii.eqb e "u" then
              match s2 with
              | String _ (String _ (String h (String l s3))) =>
                  match hex_value h, hex_value l with
                  | Some a, Some b => cons_read (ascii_of_N (16 * a + b)) (read_quoted s3)
                  | _, _ => None
                  end
              | _ => None
              end
            else
              match unescape e with
              | Some c' => cons_read c' (read_quoted s2)
              | None => None
              end
        end
      else cons_read c (read_quoted s1)
  end.

(** What follows the first element in the joined list of quoted keys. *)
Definition more (l : list string) : string :=
  match l with
  | [] => ""
  | _ :: _ => "," +:+ Js.join "," (map Js.quote l)
  end.

End JsonRead.

(** ** The vocabulary of the specification *)

Module Spec.

(** Result-shape contract: an object exposing a string-typed [text]
    field. *)
Definition valid_shape (v : Js.Value) : Prop :=
  exists fields s, v = Js.VObject fields /\ Js.assoc "text" fields = Js.VString s.

(** The effective output of a hook: the [text] of a well-shaped result, and
    the unmodified input after a failure or a result of any other shape. *)
Definition effective (r : Completion Js.Value) (arg : string) : string :=
  match r with
  | Normal (Js.VObject fields) =>
      match Js.assoc "text" fields with
      | Js.VString s => s
      | _ => arg
      end
  | _ => arg
  end.

(** What [safeCallHook] makes of a loader call's outcome: the effective
    output, or the [TypeError] of its own log line when the hook threw a
    value that has no string form. *)
Definition hook_outcome (r : Completion Js.Value) (arg : string) : Completion string :=
  match r with
  | Abrupt (Js.Unprintable why) => Abrupt (Js.TypeError why)
  | _ => Normal (effective r arg)
  end.

(** The text that a turn stores for its first hook's outcome: [undefined]
    when [safeCallHook] itself threw. *)
Definition stored (r : Completion Js.Value) (arg : string) : option string :=
  match r with
  | Abrupt (Js.Unprintable _) => None
  | _ => Some (effective r arg)
  end.

(** An outcome that is not the throw of a value without a string form. *)
Definition printable (r : Completion Js.Value) : Prop :=
  match r with
  | Abrupt (Js.Unprintable _) => False
  | _ => True
  end.

(** The ordered join of all history text, newline-separated. *)
Definition joined_text (h : list Parameters.HistoryEntry) : string :=
  Js.join Js.nl (map (fun x => Emulator.template (Parameters.text x)) h).

Definition start_entry : Parameters.HistoryEntry :=
  {| Parameters.mode := "start"; Parameters.text := Some "=== New Session Started ===" |}.

Definition flip (s : Emulator.Side) : Emulator.Side :=
  match s with Emulator.user => Emulator.ai | Emulator.ai => Emulator.user end.

(** Text that is not blank. *)
Definition non_blank (text : string) : Prop := Js.truthy_string (Js.trim text) = true.

(** The three functions of a loader. *)
Definition hooks (l : Hook.Loader) : list (Hook.Globals -> Eff Parameters.World Js.Value) :=
  [Hook.runInputModifier l; Hook.runContextModifier l; Hook.runOutputModifier l].

(** Hooks that leave [history] as they found it. *)
Definition keeps_history (l : Hook.Loader) : Prop :=
  forall run, run ∈ hooks l ->
  forall g w, Parameters.history (snd (run g w)) = Parameters.history w.



(** [add] of the story-card registry, as section 4.4 words it: reject when
    a card with an identical key sequence exists, otherwise append and
    return the new positional id. *)
Definition add (keys : list string) (entry : string) (type : option string)
    (cards : list Parameters.StoryCard) : Js.Value * list Parameters.StoryCard :=
  if bool_decide (Exists (fun card => Parameters.keys card = keys) cards)
  then (Js.VBool false, cards)
  else (Js.VNumber (Z.of_nat (length cards)),
        (cards ++ [{| Parameters.id := Z.of_nat (length cards);
                      Parameters.keys := keys;
                      Parameters.entry := entry;
                      Parameters.type := default "general" type |}])%list).

(** [remove] of the registry as section 4.4 words it: out of bounds is an
    error; otherwise the card at that position goes and every later card's
    id comes down by one. *)
Definition renumber (d : Z) (card : Parameters.StoryCard) : Parameters.StoryCard :=
  {| Parameters.id := Parameters.id card - d;
     Parameters.keys := Parameters.keys card;
     Parameters.entry := Parameters.entry card;
     Parameters.type := Parameters.type card |}.

Definition remove (index : Z) (cards : list Parameters.StoryCard)
  : option (list Parameters.StoryCard) :=
  if bool_decide (0 <= index < Z.of_nat (length cards))
  then Some (take (Z.to_nat index) cards
             ++ map (renumber 1) (drop (S (Z.to_nat index)) cards))%list
  else None.

(** The registry after [addStoryCard(["a"], "A")] and
    [addStoryCard(["b"], "B")]. *)
Definition two_cards : Parameters.World :=
  (Parameters.addStoryCard ["b"] "B" None
     (Parameters.addStoryCard ["a"] "A" None Parameters.fresh).2).2.

(** The world the context hook is run in, given the world [w1] that the
    input hook left and the text the engine stores for it. *)
Definition for_context (newText : option string) (w1 : Parameters.World)
  : Parameters.World :=
  Parameters.set_frontMemory ""
    (Parameters.set_history
       (Parameters.push {| Parameters.mode := ""; Parameters.text := newText |}) w1).

(** The hook that a turn starts with. *)
Definition first_hook (l : Hook.Loader) (s : Emulator.Side)
  : Hook.Globals -> Eff Parameters.World Js.Value :=
  match s with
  | Emulator.user => Hook.runInputModifier l
  | Emulator.ai => Hook.runOutputModifier l
  end.

(** Hooks whose throws, if any, are of values that convert to a string. *)
Definition printable_throws (l : Hook.Loader) : Prop :=
  forall run, run ∈ hooks l -> forall g w, printable (run g w).1.


(** Hooks that return [v] whatever they are given, and hooks that throw. *)
Definition constant_loader (v : Js.Value) : Hook.Loader :=
  {| Hook.runInputModifier := fun _ => ret v;
     Hook.runContextModifier := fun _ => ret v;
     Hook.runOutputModifier := fun _ => ret v |}.

Definition throwing_loader (e : Js.Exn) : Hook.Loader :=
  {| Hook.runInputModifier := fun _ => throw e;
     Hook.runContextModifier := fun _ => throw e;
     Hook.runOutputModifier := fun _ => throw e |}.

(** The function [modifier] of an identity hook: [text => ({ text })]. *)
Definition identity_modifier (text : string) : Eff Parameters.World Js.Value :=
  ret (Js.VObject [("text", Js.VString text)]).

(** Occurrences of the letter m. *)
Fixpoint count_m (s : string) : nat :=
  match s with
  | EmptyString => 0
  | String c s' => (if Ascii.eqb c "m" then 1 else 0) + count_m s'
  end.



(** A loader call that cannot get its sources: a fetch that rejects or
    answers without [ok]. *)
Definition fetch_fails (c : Completion Hook.Response) : Prop :=
  match c with
  | Normal resp => Hook.ok resp = false
  | Abrupt _ => True
  end.

End Spec.

(** ** emulator.js: what the page shows *)

Module View.

(** [s.replace(/c/g, by)] for a pattern that is one character: every
    occurrence is replaced, and what was put in is not looked at again. *)
Fixpoint replace_all (c : ascii) (by_ s : string) : string :=
  match s with
  | EmptyString => EmptyString
  | String x s' =>
      if Ascii.eqb x c then by_ +:+ replace_all c by_ s'
      else String x (replace_all c by_ s')
  end.

(** [escapeHtml(text)]; [None] is a [text] that is [null] or
    [undefined]. *)
Definition escapeHtml (text : option string) : string :=
  match text with
  | None => ""
  | Some t =>
      replace_all Js.newline "<br>"
        (replace_all ">" "&gt;"
           (replace_all "<" "&lt;"
              (replace_all "&" "&amp;" t)))
  end.

Definition maxEntries : nat := 100.

(** [array.slice(-n)] for a positive [n]: the last [n] elements, or all of
    them when there are fewer. *)
Definition slice_last {A} (n : nat) (l : list A) : list A :=
  drop (length l - n) l.

Definition buildUserView (w : Parameters.World) : string :=
  let recent :=
    slice_last maxEntries
      (map (fun h => Emulator.template (Parameters.text h)) (Parameters.history w)) in
  let userViewHtml := Js.join "<br>" (map (fun line => escapeHtml (Some line)) recent) in
  Js.nl +:+ "            <b>User View (last 100):</b><br>" +:+ Js.nl
  +:+ "            " +:+ userViewHtml +:+ Js.nl +:+ "        ".

(** [buildAIView(context)]: [frontMem] is computed and not used. *)
Definition buildAIView (w : Parameters.World) (context : option string) : string :=
  match context with
  | None => ""
  | Some c =>
      if negb (Js.truthy_string c) then ""
      else
        Js.nl +:+ "            <b>=== AI Context View ===</b><br>" +:+ Js.nl
        +:+ "            " +:+ replace_all Js.newline "<br>" c +:+ Js.nl +:+ "        "
  end.

(** [renderer_updateMainView(context)] on a page that has the main window:
    the markup assigned to its [innerHTML]. *)
Definition renderer_updateMainView (m : Emulator.Machine) (context : option string) : string :=
  match Emulator.currentSide m.1 with
  | Emulator.user => buildUserView m.2
  | Emulator.ai => buildAIView m.2 context
  end.

(** The last statement of [handleInput]: the page after the call, [None]
    when the call did not render. *)
Definition page_after (loader : Hook.Loader) (mode : option string) (text : string)
    (m : Emulator.Machine) : option string :=
  match Emulator.handleInput loader mode text m with
  | (Normal (Emulator.MainView context), m') => Some (renderer_updateMainView m' context)
  | _ => None
  end.

End View.

(** ** Vocabulary of the further properties *)

Module Props.

(** One character of [escapeHtml], done in a single pass. *)
Definition escape_char (c : ascii) : string :=
  if Ascii.eqb c "&" then "&amp;"
  else if Ascii.eqb c "<" then "&lt;"
  else if Ascii.eqb c ">" then "&gt;"
  else if Ascii.eqb c Js.newline then "<br>"
  else String c "".

Fixpoint escape (s : string) : string :=
  match s with
  | EmptyString => EmptyString
  | String c s' => escape_char c +:+ escape s'
  end.

(** Reads escaped text back. *)
Fixpoint unescape (s : string) : string :=
  match s with
  | EmptyString => EmptyString
  | String c s1 =>
      if Ascii.eqb c "&" then
        match s1 with
        | String "a" (String "m" (String "p" (String ";" r))) => String "&" (unescape r)
        | String "l" (String "t" (String ";" r)) => String "<" (unescape r)
        | String "g" (String "t" (String ";" r)) => String ">" (unescape r)
        | _ => String c (unescape s1)
        end
      else if Ascii.eqb c "<" then
        match s1 with
        | String "b" (String "r" (String ">" r)) => String Js.newline (unescape r)
        | _ => String c (unescape s1)
        end
      else String c (unescape s1)
  end.


(** No two cards with the same key sequence. *)
Definition unique_keys (cards : list Parameters.StoryCard) : Prop :=
  NoDup (map Parameters.keys cards).

(** Every card's [id] is its position. *)
Definition ids_are_positions (cards : list Parameters.StoryCard) : Prop :=
  forall i card, cards !! i = Some card -> Parameters.id card = Z.of_nat i.

(** A text made of white space only, the empty text included. *)
Fixpoint all_space (s : string) : bool :=
  match s with
  | EmptyString => true
  | String c s' => Js.is_space c && all_space s'
  end.

(** The inputs of a run that are not blank. *)
Definition valid_inputs (inputs : list (option string * string))
  : list (option string * string) :=
  filter (fun i => all_space i.2 = false) inputs.


(** An entry whose text is a string. *)
Definition turn_entry (h : Parameters.HistoryEntry) : Prop :=
  exists t, Parameters.text h = Some t.


(** The side after [n] turns that started on side [s]. *)
Definition side_after (s : Emulator.Side) (n : nat) : Emulator.Side :=
  if Nat.even n then s else Spec.flip s.

End Props.

(** * Theorems *)

(** ** Strings *)

Lemma append_cons (c : ascii) (a b : string) : String c a +:+ b = String c (a +:+ b).
Proof. reflexivity. Qed.

Lemma append_empty_l (a : string) : "" +:+ a = a.
Proof. reflexivity. Qed.

Lemma append_assoc (a b c : string) : (a +:+ b) +:+ c = a +:+ (b +:+ c).
Proof.
  induction a as [|x a IH]; [reflexivity|].
  rewrite !append_cons. by f_equal.
Qed.

Lemma append_empty_r (a : string) : a +:+ "" = a.
Proof.
  induction a as [|x a IH]; [reflexivity|].
  rewrite append_cons. by f_equal.
Qed.

(** ** [JSON.stringify] separates key sequences *)

Section Json.

Import JsonRead.

(** Reading back what [quote_char] wrote gives the character. *)
Lemma read_quote_char (c : ascii) (k : string) :
  read_quoted (Js.quote_char c +:+ k) = cons_read c (read_quoted k).
Proof. destruct c as [[] [] [] [] [] [] [] []]; reflexivity. Qed.

Lemma read_quote_body (s rest : string) :
  read_quoted (Js.quote_body s +:+ String Js.dquote rest) = Some (s, rest).
Proof.
  induction s as [|c s IH]; [reflexivity|].
  cbn [Js.quote_body]. rewrite append_assoc, read_quote_char, IH. reflexivity.
Qed.

(** A quoted string is a prefix code. *)
Lemma quote_app_inj (a b r1 r2 : string) :
  Js.quote a +:+ r1 = Js.quote b +:+ r2 -> a = b /\ r1 = r2.
Proof.
  unfold Js.quote. rewrite !append_cons, !append_assoc, !append_cons, !append_empty_l.
  intros H. injection H as H.
  apply (f_equal read_quoted) in H.
  rewrite !read_quote_body in H. by injection H.
Qed.

Lemma join_quote_cons (x : string) (l : list string) :
  Js.join "," (map Js.quote (x :: l)) = Js.quote x +:+ more l.
Proof.
  destruct l as [|y l]; cbn [map Js.join String.concat more].
  - by rewrite append_empty_r.
  - reflexivity.
Qed.

Lemma join_quote_inj (l1 l2 : list string) :
  Js.join "," (map Js.quote l1) +:+ "]" = Js.join "," (map Js.quote l2) +:+ "]" ->
  l1 = l2.
Proof.
  revert l2. induction l1 as [|x l1 IH]; intros [|y l2] H.
  - reflexivity.
  - rewrite join_quote_cons in H. discriminate H.
  - rewrite join_quote_cons in H. discriminate H.
  - rewrite !join_quote_cons, !append_assoc in H.
    apply quote_app_inj in H as [-> H]. f_equal.
    destruct l1 as [|x1 l1], l2 as [|y1 l2]; try discriminate H.
    + reflexivity.
    + apply IH. unfold more in H. rewrite !append_assoc in H.
      by injection H.
Qed.

Lemma stringify_inj (k1 k2 : list string) :
  Js.stringify k1 = Js.stringify k2 -> k1 = k2.
Proof.
  unfold Js.stringify. intros H. injection H as H. by apply join_quote_inj.
Qed.

(** The serialized comparison of [addStoryCard] decides equality of key
    sequences. *)
Lemma stringify_eqb (k1 k2 : list string) :
  String.eqb (Js.stringify k1) (Js.stringify k2) = bool_decide (k1 = k2).
Proof.
  destruct (String.eqb_spec (Js.stringify k1) (Js.stringify k2)) as [H|H].
  - apply stringify_inj in H. by rewrite bool_decide_eq_true_2.
  - rewrite bool_decide_eq_false_2; [done|]. by intros ->.
Qed.

End Json.

(** ** The story-card registry *)

Section Registry.

Import Parameters.

Lemma existsb_same_keys (ks : list string) (cards : list StoryCard) :
  existsb (fun card => String.eqb (Js.stringify (keys card)) (Js.stringify ks)) cards
  = bool_decide (Exists (fun card => keys card = ks) cards).
Proof.
  induction cards as [|card cards IH]; cbn [existsb].
  - rewrite bool_decide_eq_false_2; [done|]. by intros ?%Exists_nil.
  - rewrite IH, stringify_eqb. apply eq_true_iff_eq.
    rewrite orb_true_iff, !bool_decide_eq_true, Exists_cons. done.
Qed.

Lemma set_storyCards_same (w : World) :
  set_storyCards (fun _ => storyCards w) w = w.
Proof. by destruct w. Qed.

Lemma addStoryCard_add (w : World) (ks : list string) (e : string) (t : option string) :
  addStoryCard ks e t w =
    (Normal (Spec.add ks e t (storyCards w)).1,
     set_storyCards (fun _ => (Spec.add ks e t (storyCards w)).2) w).
Proof.
  unfold addStoryCard, Spec.add, bind, gets, modify, ret.
  rewrite existsb_same_keys. case_bool_decide as H; cbn.
  - by rewrite set_storyCards_same.
  - unfold len, push. cbn. rewrite length_app. cbn.
    replace (Z.of_nat (length (storyCards w) + 1) - 1)
      with (Z.of_nat (length (storyCards w))) by lia.
    reflexivity.
Qed.

(** After [addStoryCard ks], some card has the keys [ks]. *)
Lemma add_has_keys (ks : list string) (e : string) (t : option string)
    (cards : list StoryCard) :
  Exists (fun card => keys card = ks) (Spec.add ks e t cards).2.
Proof.
  unfold Spec.add. case_bool_decide as H; cbn; [done|].
  apply Exists_app. right. by apply Exists_cons_hd.
Qed.

(** C5. [addStoryCard(keys, entry, type)] is the registry's [add]: with a
    card of the same key sequence present it returns [false] and leaves the
    registry as it is, otherwise it appends one card and returns its index.
    Adding the same keys a second time returns [false] and changes nothing,
    and in the empty registry the first call for ["a","b"] returns index
    0. *)
Theorem addStoryCard_refines_add :
  (forall w ks e t,
     addStoryCard ks e t w =
       (Normal (Spec.add ks e t (storyCards w)).1,
        set_storyCards (fun _ => (Spec.add ks e t (storyCards w)).2) w))
  /\ (forall w ks e1 t1 e2 t2,
        addStoryCard ks e2 t2 (addStoryCard ks e1 t1 w).2
        = (Normal (Js.VBool false), (addStoryCard ks e1 t1 w).2))
  /\ (forall e t,
        (addStoryCard ["a"; "b"] e t fresh).1 = Normal (Js.VNumber 0)
        /\ length (storyCards (addStoryCard ["a"; "b"] e t fresh).2) = 1%nat).
Proof.
  split; [exact addStoryCard_add|]. split.
  - intros w ks e1 t1 e2 t2. rewrite (addStoryCard_add w). cbn [snd].
    rewrite addStoryCard_add. cbn [storyCards set_storyCards].
    unfold Spec.add at 1 3.
    rewrite bool_decide_eq_true_2 by apply add_has_keys. cbn [fst snd].
    reflexivity.
  - intros e t. split; reflexivity.
Qed.

Lemma removeStoryCard_cases (w : World) (index : Z) :
  removeStoryCard index w =
    if bool_decide (0 <= index < len (storyCards w))
    then (Normal tt, set_storyCards (delete (Z.to_nat index)) w)
    else (Abrupt (Js.Error "Story card does not exist"), w).
Proof.
  unfold removeStoryCard, bind, gets, modify, throw.
  case_bool_decide as H.
  - replace (index <? 0) with false by lia.
    replace (index >=? len (storyCards w)) with false by lia. reflexivity.
  - destruct (Z.ltb_spec index 0); [reflexivity|].
    replace (index >=? len (storyCards w)) with true by lia. reflexivity.
Qed.

(** A removal leaves every remaining card as it was, its [id] included:
    the card now at position [j] is the old card at [j] or at [j + 1]. *)
Lemma removeStoryCard_keeps_cards (w : World) (index : Z) (j : nat) :
  0 <= index < len (storyCards w) ->
  storyCards (removeStoryCard index w).2 !! j
  = storyCards w !! (if decide (j < Z.to_nat index)%nat then j else S j).
Proof.
  intros H. rewrite removeStoryCard_cases, bool_decide_eq_true_2 by done.
  cbn [snd set_storyCards storyCards]. case_decide.
  - by apply list_lookup_delete_lt.
  - apply list_lookup_delete_ge. lia.
Qed.

(** C6. Removing the card at index 0 from the two-card registry leaves the
    second card, at position 0, with its [id] field still 1: the stored id
    is not renumbered, where the registry's [remove] brings it down to 0. *)
Theorem removeStoryCard_keeps_stale_id :
  storyCards Spec.two_cards
    = [ {| id := 0; keys := ["a"]; entry := "A"; type := "general" |};
        {| id := 1; keys := ["b"]; entry := "B"; type := "general" |} ]
  /\ (removeStoryCard 0 Spec.two_cards).1 = Normal tt
  /\ storyCards (removeStoryCard 0 Spec.two_cards).2
     = [ {| id := 1; keys := ["b"]; entry := "B"; type := "general" |} ]
  /\ Spec.remove 0 (storyCards Spec.two_cards)
     = Some [ {| id := 0; keys := ["b"]; entry := "B"; type := "general" |} ].
Proof. repeat split. Qed.

End Registry.

(** ** The capture of the trailing call *)

Section Capture.

Import Sandbox.

Lemma count_m_app (a b : string) :
  Spec.count_m (a +:+ b) = (Spec.count_m a + Spec.count_m b)%nat.
Proof.
  induction a as [|x a IH]; [reflexivity|].
  rewrite append_cons. cbn [Spec.count_m]. rewrite IH. lia.
Qed.

Lemma strip_Some (p s r : string) : Loader.strip p s = Some r -> s = p +:+ r.
Proof.
  revert s. induction p as [|a p IH]; intros s H.
  - cbn in H. by injection H as ->.
  - destruct s as [|b s]; [discriminate H|]. cbn in H.
    destruct (Ascii.eqb_spec a b) as [->|]; [|discriminate H].
    rewrite append_cons. f_equal. by apply IH.
Qed.

Lemma strip_app (p r : string) : Loader.strip p (p +:+ r) = Some r.
Proof.
  induction p as [|a p IH]; [reflexivity|].
  rewrite append_cons. cbn. by rewrite Ascii.eqb_refl.
Qed.

(** White space holds no letter. *)
Lemma count_m_trimStart (s : string) : Spec.count_m (Js.trimStart s) = Spec.count_m s.
Proof.
  induction s as [|c s IH]; [reflexivity|]. cbn [Js.trimStart].
  destruct (Js.is_space c) eqn:E; [|reflexivity].
  rewrite IH. cbn [Spec.count_m].
  destruct (Ascii.eqb_spec c "m") as [->|]; [discriminate E|reflexivity].
Qed.

Lemma is_space_space_char (x : Space) : Js.is_space (space_char x) = true.
Proof. by destruct x. Qed.

Lemma trimStart_spaces (l : list Space) (r : string) :
  Js.trimStart (spaces l +:+ r) = Js.trimStart r.
Proof.
  induction l as [|x l IH]; [reflexivity|].
  cbn [spaces]. rewrite append_cons. cbn [Js.trimStart].
  by rewrite is_space_space_char.
Qed.

(** Every way of writing the call matches the pattern up to the end. *)
Lemma trailing_call_render (c : CallSyntax) : Loader.trailing_call (render_call c) = true.
Proof.
  unfold Loader.trailing_call, render_call.
  rewrite strip_app, trimStart_spaces.
  change (Js.trimStart ("(" +:+ ?r)) with ("(" +:+ r).
  rewrite strip_app, trimStart_spaces.
  change (Js.trimStart ("text" +:+ ?r)) with ("text" +:+ r).
  rewrite strip_app, trimStart_spaces.
  change (Js.trimStart (")" +:+ ?r)) with (")" +:+ r).
  rewrite strip_app, trimStart_spaces.
  destruct (semicolon c).
  - change (Js.trimStart (";" +:+ ?r)) with (";" +:+ r).
    rewrite strip_app.
    rewrite <- (append_empty_r (spaces (sp5 c))), trimStart_spaces. reflexivity.
  - rewrite append_empty_l.
    rewrite <- (append_empty_r (spaces (sp5 c))), trimStart_spaces. reflexivity.
Qed.

(** A text that matches starts with the m of "modifier" and has no other:
    no match can start before another one. *)
Lemma trailing_call_one_m (s : string) :
  Loader.trailing_call s = true -> exists r, s = String "m" r /\ Spec.count_m r = 0%nat.
Proof.
  unfold Loader.trailing_call. intros H.
  destruct (Loader.strip "modifier" s) as [s1|] eqn:E1; [|discriminate H].
  destruct (Loader.strip "(" (Js.trimStart s1)) as [s2|] eqn:E2; [|discriminate H].
  destruct (Loader.strip "text" (Js.trimStart s2)) as [s3|] eqn:E3; [|discriminate H].
  destruct (Loader.strip ")" (Js.trimStart s3)) as [s4|] eqn:E4; [|discriminate H].
  apply strip_Some in E1, E2, E3, E4.
  apply (f_equal Spec.count_m) in E2, E3, E4.
  rewrite count_m_trimStart, count_m_app in E2, E3, E4. cbn in E2, E3, E4.
  assert (Spec.count_m (Js.trimStart s4) = 0%nat) as E5.
  { destruct (Loader.strip ";" (Js.trimStart s4)) as [r|] eqn:E6.
    - apply strip_Some in E6. rewrite E6, count_m_app.
      rewrite <- (count_m_trimStart r).
      destruct (Js.trimStart r); [reflexivity|discriminate H].
    - rewrite <- count_m_trimStart.
      destruct (Js.trimStart (Js.trimStart s4)); [reflexivity|discriminate H]. }
  rewrite count_m_trimStart in E5.
  subst s. exists ("odifier" +:+ s1). split; [reflexivity|].
  rewrite count_m_app. cbn. lia.
Qed.

Lemma count_m_render_call (c : CallSyntax) : (1 <= Spec.count_m (render_call c))%nat.
Proof. unfold render_call. rewrite count_m_app. cbn. lia. Qed.

(** Loader.js, step 2: the trailing call, however written, becomes the
    [return] statement and the text before it is kept. *)
Lemma replace_trailing_call_render (decls : string) (c : CallSyntax) :
  Loader.replace_trailing_call (decls +:+ render_call c)
  = decls +:+ "return modifier(text);".
Proof.
  induction decls as [|x decls IH].
  - rewrite !append_empty_l.
    pose proof (trailing_call_render c) as H.
    destruct (render_call c); cbn [Loader.replace_trailing_call]; by rewrite H.
  - rewrite !append_cons. cbn [Loader.replace_trailing_call].
    destruct (Loader.trailing_call (String x (decls +:+ render_call c))) eqn:E.
    + apply trailing_call_one_m in E as (r & E & Hr).
      injection E as -> <-. rewrite count_m_app in Hr.
      pose proof (count_m_render_call c). lia.
    + by rewrite IH.
Qed.

Section Modifier.

Variable modifier : string -> Eff Parameters.World Js.Value.

(** C9. sandboxLoader.js, given a hook source that ends in the call
    [modifier(text)]: the assembled body is the rendering of
    [SandboxLoader.program], which holds the source's own call and the
    appended capturing call.  When both calls return, [modifier] has run
    twice and the activation hands back [undefined]: the second result sits
    on the global object, not on [globals]. *)
Theorem sandboxLoader_calls_modifier_twice (g : Hook.Globals) (lib decls : string)
    (c : CallSyntax) (w w1 w2 : Parameters.World) (v1 v2 : Js.Value) :
  modifier (Hook.text g) w = (Normal v1, w1) ->
  modifier (Hook.text g) w1 = (Normal v2, w2) ->
  SandboxLoader.sandboxSource lib ((decls +:+ render_call c) +:+ SandboxLoader.capture_text)
    = render (SandboxLoader.program lib decls c)
  /\ invoke modifier g (SandboxLoader.program lib decls c) w
     = (Normal Js.VUndefined,
        ({| modifierCalls := 2;
            globalThis_modifierReturn := v2;
            globals_modifierReturn := Js.VUndefined |}, w2)).
Proof.
  intros H1 H2. split.
  - unfold SandboxLoader.sandboxSource, SandboxLoader.program, SandboxLoader.capture_text.
    cbn [render render_stmt]. rewrite !append_assoc, append_empty_r. reflexivity.
  - unfold invoke, SandboxLoader.program. cbn [run].
    unfold bind, modify, callModifier, gets. cbn. rewrite H1, H2. reflexivity.
Qed.

End Modifier.

(** The hook source [const modifier = (text) => ({ text })] followed by
    [modifier(text)], loaded by sandboxLoader.js for the text "hello". *)
Lemma sandboxLoader_calls_modifier_twice_witness :
  let c := {| sp1 := []; sp2 := []; sp3 := []; sp4 := []; semicolon := false; sp5 := [] |} in
  let decls := "const modifier = (text) => ({ text })" +:+ Js.nl in
  let g := {| Hook.text := "hello" |} in
  SandboxLoader.sandboxSource "" ((decls +:+ render_call c) +:+ SandboxLoader.capture_text)
    = render (SandboxLoader.program "" decls c)
  /\ invoke Spec.identity_modifier g (SandboxLoader.program "" decls c) Parameters.fresh
     = (Normal Js.VUndefined,
        ({| modifierCalls := 2;
            globalThis_modifierReturn := Js.VObject [("text", Js.VString "hello")];
            globals_modifierReturn := Js.VUndefined |}, Parameters.fresh)).
Proof.
  intros c decls g.
  apply (sandboxLoader_calls_modifier_twice Spec.identity_modifier g "" decls c
           Parameters.fresh Parameters.fresh Parameters.fresh
           (Js.VObject [("text", Js.VString "hello")])
           (Js.VObject [("text", Js.VString "hello")]));
    reflexivity.
Defined.

End Capture.

(** ** The turn engine *)

Section Turn.

Import Parameters Emulator.

Variable L : Hook.Loader.

(** What [safeCallHook] does for a hook name the [switch] knows: one
    loader call, whose outcome is reduced to the hook's effective output,
    or to the [TypeError] of the log line in the [catch]. *)
Lemma safeCallHook_run (name arg : string) run (e : Emulator) (w : World) :
  dispatch L name = Some run ->
  safeCallHook L name arg (e, w)
  = (Spec.hook_outcome (run (getHookGlobals arg) w).1 arg,
     (with_call name arg e, (run (getHookGlobals arg) w).2)).
Proof.
  intros H. unfold safeCallHook, try_catch. rewrite H.
  unfold bind, note_call, modify, in_world, ret.
  destruct (run (getHookGlobals arg) w) as [[v|ex] w']; [|by destruct ex].
  destruct v as [| |b|n|s|fields]; cbn [Js.truthy Spec.hook_outcome Spec.effective fst snd];
    try reflexivity.
  - by destruct b.
  - by destruct (negb _).
  - by destruct (Js.truthy_string s).
  - cbn [Js.get]. by destruct (Js.assoc "text" fields).
Qed.


(** [processInput] and [processOutput] always return: the text, or
    [undefined] when [safeCallHook] threw. *)
Lemma processInput_run (mode rawText : string) (e : Emulator) (w : World) :
  processInput L mode rawText (e, w)
  = (Normal (Spec.stored (Hook.runInputModifier L (getHookGlobals rawText) w).1 rawText),
     (with_call "inputModifier" rawText e,
      (Hook.runInputModifier L (getHookGlobals rawText) w).2)).
Proof.
  unfold processInput, try_catch, bind.
  rewrite (safeCallHook_run "inputModifier" rawText (Hook.runInputModifier L)) by reflexivity.
  destruct (Hook.runInputModifier L (getHookGlobals rawText) w) as [[v|[n m|v|why]] w'];
    reflexivity.
Qed.

Lemma processOutput_run (rawText : string) (e : Emulator) (w : World) :
  processOutput L rawText (e, w)
  = (Normal (Spec.stored (Hook.runOutputModifier L (getHookGlobals rawText) w).1 rawText),
     (with_call "outputModifier" rawText e,
      (Hook.runOutputModifier L (getHookGlobals rawText) w).2)).
Proof.
  unfold processOutput, try_catch, bind.
  rewrite (safeCallHook_run "outputModifier" rawText (Hook.runOutputModifier L)) by reflexivity.
  destruct (Hook.runOutputModifier L (getHookGlobals rawText) w) as [[v|[n m|v|why]] w'];
    reflexivity.
Qed.

(** A turn on the user side.  When the context hook throws a value without
    a string form the call ends abruptly, after the push and before the
    side changes. *)
Lemma handleInput_user (mode : option string) (text : string) (e : Emulator) (w : World) :
  currentSide e = user -> Spec.non_blank text ->
  let r1 := Hook.runInputModifier L (getHookGlobals text) w in
  let w1 := Spec.for_context (Spec.stored r1.1 text) r1.2 in
  let ctx := Spec.joined_text (history w1) in
  let r2 := Hook.runContextModifier L (getHookGlobals ctx) w1 in
  let e2 := with_call "contextModifier" ctx (with_call "inputModifier" text e) in
  handleInput L mode text (e, w)
  = match Spec.hook_outcome r2.1 ctx with
    | Normal out => (Normal (MainView (Some out)), (with_side ai e2, r2.2))
    | Abrupt ex => (Abrupt ex, (e2, r2.2))
    end.
Proof.
  intros Hs Hnb. unfold handleInput. unfold bind at 1. cbn [gets].
  rewrite Hnb. cbn [negb]. unfold bind at 1. cbn [gets]. rewrite Hs.
  unfold bind at 1. rewrite processInput_run.
  unfold processContext, bind, history_push, in_world, modify, gets.
  cbn [ret fst snd].
  rewrite (safeCallHook_run "contextModifier" _ (Hook.runContextModifier L)) by reflexivity.
  cbn [fst snd].
  by destruct (Spec.hook_outcome _ _).
Qed.

(** A turn on the AI side always completes. *)
Lemma handleInput_ai (mode : option string) (text : string) (e : Emulator) (w : World) :
  currentSide e = ai -> Spec.non_blank text ->
  let r1 := Hook.runOutputModifier L (getHookGlobals text) w in
  handleInput L mode text (e, w)
  = (Normal (MainView None),
     (with_side user (with_call "outputModifier" text e),
      set_history (push {| mode := ""; text := Spec.stored r1.1 text |}) r1.2)).
Proof.
  intros Hs Hnb. unfold handleInput. unfold bind at 1. cbn [gets].
  rewrite Hnb. cbn [negb]. unfold bind at 1. cbn [gets]. rewrite Hs.
  unfold bind at 1. rewrite processOutput_run.
  reflexivity.
Qed.

(** Blank text: nothing happens. *)
Lemma handleInput_blank (mode : option string) (text : string) (m : Machine) :
  ~ Spec.non_blank text -> handleInput L mode text m = (Normal Ignored, m).
Proof.
  intros Hb. destruct m as [e w]. unfold handleInput. unfold bind at 1. cbn [gets].
  unfold Spec.non_blank in Hb. apply not_true_is_false in Hb. by rewrite Hb.
Qed.

End Turn.

(** ** Sessions *)

Section Claims.
Import Parameters Emulator.


Lemma in_hooks (L : Hook.Loader) :
  Hook.runInputModifier L ∈ Spec.hooks L
  /\ Hook.runContextModifier L ∈ Spec.hooks L
  /\ Hook.runOutputModifier L ∈ Spec.hooks L.
Proof. unfold Spec.hooks. repeat split; repeat constructor. Qed.

Lemma history_for_context (t : option string) (w : World) :
  history (Spec.for_context t w) = history w ++ [{| mode := ""; text := t |}].
Proof. reflexivity. Qed.

(** Outcomes that are no throw of a value without a string form. *)
Lemma stored_printable (r : Completion Js.Value) (arg : string) :
  Spec.printable r -> Spec.stored r arg = Some (Spec.effective r arg).
Proof. by destruct r as [v|[n m|v|why]]. Qed.

Lemma hook_outcome_printable (r : Completion Js.Value) (arg : string) :
  Spec.printable r -> Spec.hook_outcome r arg = Normal (Spec.effective r arg).
Proof. by destruct r as [v|[n m|v|why]]. Qed.


(** The state a user turn leaves, whether or not the call completes. *)
Lemma handleInput_user_state (L : Hook.Loader) mode text (e : Emulator) (w : World) :
  currentSide e = user -> Spec.non_blank text ->
  let r1 := Hook.runInputModifier L (getHookGlobals text) w in
  let w1 := Spec.for_context (Spec.stored r1.1 text) r1.2 in
  let ctx := Spec.joined_text (history w1) in
  (handleInput L mode text (e, w)).2.2 = (Hook.runContextModifier L (getHookGlobals ctx) w1).2
  /\ hookCalls (handleInput L mode text (e, w)).2.1
     = hookCalls e ++ [("inputModifier", text); ("contextModifier", ctx)].
Proof.
  intros Hs Hnb r1 w1 ctx. subst r1 w1 ctx. rewrite handleInput_user by done.
  destruct (Spec.hook_outcome _ _); cbn [fst snd hookCalls with_side with_call];
    by rewrite <- app_assoc.
Qed.

(** With hooks that leave history alone each valid turn appends one entry. *)
Lemma handleInput_history (L : Hook.Loader) mode text (m : Machine) :
  Spec.keeps_history L -> Spec.non_blank text ->
  exists entry, history (handleInput L mode text m).2.2 = history m.2 ++ [entry]
    /\ Parameters.text entry
       = Spec.stored (Spec.first_hook L (currentSide m.1) (getHookGlobals text) m.2).1 text.
Proof.
  intros Hk Hnb. destruct m as [e w]. destruct (in_hooks L) as (Hi & Hc & Ho).
  destruct (currentSide e) eqn:Hs.
  - destruct (handleInput_user_state L mode text e w Hs Hnb) as [-> _].
    rewrite (Hk _ Hc), history_for_context, (Hk _ Hi). cbn [fst snd]. rewrite Hs. eauto.
  - rewrite handleInput_ai by done. cbn [fst snd set_history history push].
    rewrite (Hk _ Ho). rewrite Hs. eauto.
Qed.




Lemma keeps_history_identity : Spec.keeps_history identity_loader.
Proof.
  intros run Hin g w. unfold Spec.hooks in Hin. cbn in Hin.
  rewrite !elem_of_cons in Hin. destruct Hin as [->|[->|[->|Hin]]]; try reflexivity.
  by apply elem_of_nil in Hin.
Defined.



(** ** Failure containment *)

(** Loader.js and sandboxLoader.js: a source that cannot be fetched makes
    the loader call end abruptly, before any script has run. *)
Lemma loadModifier_fetch_fails (browser : Hook.Browser) (path : string)
    (g : Hook.Globals) (w : World) :
  Spec.fetch_fails (Hook.fetch browser path) ->
  (exists ex, Loader.loadModifier browser path g w = (Abrupt ex, w))
  /\ (exists ex, SandboxLoader.loadModifier browser path g w = (Abrupt ex, w)).
Proof.
  intros Hf. unfold Loader.loadModifier, SandboxLoader.loadModifier, bind, Hook.await, throw.
  split.
  - destruct (Hook.fetch browser "../Script/Library.js") as [lib|ex]; [|eauto].
    destruct (Hook.fetch browser path) as [resp|ex]; [|eauto].
    cbn in Hf. rewrite Hf. destruct (Hook.ok lib); cbn; eauto.
  - destruct (Hook.fetch browser "./Library.js") as [lib|ex]; [|eauto].
    destruct (Hook.fetch browser path) as [resp|ex]; [|eauto].
    cbn in Hf. rewrite Hf. destruct (Hook.ok lib); cbn; eauto.
Qed.

(** C2 does not hold of the code.  Hooks that throw a value without a
    string form, as a script made of [throw Symbol("boom")] does: the
    [catch] of [safeCallHook] throws a [TypeError] while it builds its log
    line, so the failure leaves [safeCallHook] for each of the three hook
    names instead of turning into the unmodified input.  In a fresh session
    [handleInput("say", "hello")] then stores an entry whose text is
    [undefined], not "hello", and ends abruptly with that [TypeError] out of
    the context hook, [currentSide] still "user"; on the AI side the turn
    completes but the entry stored has the text [undefined] as well. *)
Theorem unprintable_throw_escapes (why : string) :
  let L := Spec.throwing_loader (Js.Unprintable why) in
  (forall arg e w,
     safeCallHook L "inputModifier" arg (e, w)
     = (Abrupt (Js.TypeError why), (with_call "inputModifier" arg e, w))
     /\ safeCallHook L "contextModifier" arg (e, w)
        = (Abrupt (Js.TypeError why), (with_call "contextModifier" arg e, w))
     /\ safeCallHook L "outputModifier" arg (e, w)
        = (Abrupt (Js.TypeError why), (with_call "outputModifier" arg e, w)))
  /\ (let r := handleInput L (Some "say") "hello" (new fresh) in
      r.1 = Abrupt (Js.TypeError why)
      /\ currentSide r.2.1 = user
      /\ history r.2.2 = [Spec.start_entry; {| mode := ""; text := None |}])
  /\ (let r := handleInput L (Some "say") "hello"
                 (with_side ai (new fresh).1, (new fresh).2) in
      r.1 = Normal (MainView None)
      /\ currentSide r.2.1 = user
      /\ history r.2.2 = [Spec.start_entry; {| mode := ""; text := None |}]).
Proof.
  intros L. split; [|split].
  - intros arg e w. split; [|split].
    + by rewrite (safeCallHook_run L "inputModifier" arg (Hook.runInputModifier L)).
    + by rewrite (safeCallHook_run L "contextModifier" arg (Hook.runContextModifier L)).
    + by rewrite (safeCallHook_run L "outputModifier" arg (Hook.runOutputModifier L)).
  - change (new fresh) with ((new fresh).1, (new fresh).2).
    rewrite handleInput_user by reflexivity. repeat split.
  - rewrite handleInput_ai by reflexivity. repeat split.
Qed.

Lemma keeps_history_throwing (ex : Js.Exn) : Spec.keeps_history (Spec.throwing_loader ex).
Proof.
  intros run Hin g w. unfold Spec.hooks in Hin. cbn in Hin.
  rewrite !elem_of_cons in Hin. destruct Hin as [->|[->|[->|Hin]]]; try reflexivity.
  by apply elem_of_nil in Hin.
Defined.

Lemma printable_throws_identity : Spec.printable_throws identity_loader.
Proof.
  intros run Hin g w. unfold Spec.hooks in Hin. cbn in Hin.
  rewrite !elem_of_cons in Hin. destruct Hin as [->|[->|[->|Hin]]]; try exact I.
  by apply elem_of_nil in Hin.
Defined.

Lemma printable_throws_throwing (n msg : string) :
  Spec.printable_throws (Spec.throwing_loader (Js.mkExn n msg)).
Proof.
  intros run Hin g w. unfold Spec.hooks in Hin. cbn in Hin.
  rewrite !elem_of_cons in Hin. destruct Hin as [->|[->|[->|Hin]]]; try exact I.
  by apply elem_of_nil in Hin.
Defined.

(** ** What a user turn stores *)

(** C3, amended.  On a user turn with non-blank text, with hooks whose
    throws have a string form, the entry appended to history has the result
    of the input hook as its text, the turn ends on the AI side, and the
    context hook is run on the history that ends in that entry.  In a fresh
    session with identity hooks, [handleInput("say", "hello")] leaves the
    session-start entry followed by one entry of text "hello", the side
    "ai", and the context "=== New Session Started ===" and "hello" on two
    lines. *)
Theorem user_turn_appends_input_result (L : Hook.Loader) (mode : option string)
    (text : string) (e : Emulator) (w : World) :
  Spec.printable_throws L ->
  currentSide e = user -> Spec.non_blank text ->
  let r1 := Hook.runInputModifier L (getHookGlobals text) w in
  (exists entry w1 view m',
     Parameters.text entry = Some (Spec.effective r1.1 text)
     /\ history w1 = history r1.2 ++ [entry]
     /\ handleInput L mode text (e, w) = (Normal view, m')
     /\ currentSide m'.1 = ai
     /\ m'.2 = (Hook.runContextModifier L
                  (getHookGlobals (Spec.joined_text (history w1))) w1).2
     /\ (Spec.keeps_history L -> history m'.2 = history w ++ [entry]))
  /\ (exists entry e' w',
        handleInput identity_loader (Some "say") "hello" (new fresh)
        = (Normal (MainView (Some ("=== New Session Started ===" +:+ Js.nl +:+ "hello"))),
           (e', w'))
        /\ history w' = [Spec.start_entry; entry]
        /\ Parameters.text entry = Some "hello"
        /\ currentSide e' = ai).
Proof.
  intros Hp Hs Hnb r1. subst r1. destruct (in_hooks L) as (Hi & Hc & _). split.
  - rewrite handleInput_user by done.
    rewrite (stored_printable _ _ (Hp _ Hi (getHookGlobals text) w)).
    rewrite (hook_outcome_printable _ _ (Hp _ Hc _ _)).
    do 4 eexists.
    split; [|split; [apply history_for_context|]]; [reflexivity|].
    split; [reflexivity|]. split; [reflexivity|]. split; [reflexivity|].
    intros Hk. cbn [snd]. by rewrite (Hk _ Hc), history_for_context, (Hk _ Hi).
  - do 3 eexists. split; [vm_compute; reflexivity|]. repeat split.
Qed.

Lemma user_turn_appends_input_result_witness :
  exists entry e' w',
    handleInput identity_loader (Some "say") "hello" (new fresh)
    = (Normal (MainView (Some ("=== New Session Started ===" +:+ Js.nl +:+ "hello"))),
       (e', w'))
    /\ history w' = [Spec.start_entry; entry]
    /\ Parameters.text entry = Some "hello"
    /\ currentSide e' = ai.
Proof.
  apply (user_turn_appends_input_result identity_loader (Some "say") "hello"
           (new fresh).1 (new fresh).2 printable_throws_identity); reflexivity.
Defined.

(** C3 as worded fails in its own scenario: after
    [handleInput("say", "hello")] in a fresh session with identity hooks,
    history is not the one entry [{mode: "say", text: "hello"}]. *)
Lemma fresh_say_hello_is_not_single_entry :
  history (handleInput identity_loader (Some "say") "hello" (new fresh)).2.2
  <> [{| mode := "say"; text := Some "hello" |}].
Proof. vm_compute. discriminate. Qed.

(** ** The transformed context *)

(** C4 does not hold of the code.  A user turn never assigns
    [state.memory.transformedContext]: when the context hook is called the
    field is as the input hook left it, and the world the turn leaves is the
    one the context hook left.  In a fresh session with identity hooks,
    [handleInput("say", "hello")] hands the context
    "=== New Session Started ===" and "hello" on two lines to the renderer,
    and the field is [undefined] afterwards. *)
Theorem context_hook_output_is_not_stored (L : Hook.Loader) (mode : option string)
    (text : string) (e : Emulator) (w : World) :
  currentSide e = user -> Spec.non_blank text ->
  let r1 := Hook.runInputModifier L (getHookGlobals text) w in
  let w1 := Spec.for_context (Spec.stored r1.1 text) r1.2 in
  let ctx := Spec.joined_text (history w1) in
  let r2 := Hook.runContextModifier L (getHookGlobals ctx) w1 in
  (handleInput L mode text (e, w)).2.2 = r2.2
  /\ transformedContext (memory (state w1)) = transformedContext (memory (state r1.2))
  /\ (let r := handleInput identity_loader (Some "say") "hello" (new fresh) in
      r.1 = Normal (MainView (Some ("=== New Session Started ===" +:+ Js.nl +:+ "hello")))
      /\ transformedContext (memory (state r.2.2)) = None).
Proof.
  intros Hs Hnb r1 w1 ctx r2. subst r1 w1 ctx r2.
  destruct (handleInput_user_state L mode text e w Hs Hnb) as [-> _]. repeat split.
Qed.

Lemma context_hook_output_is_not_stored_witness :
  let r := handleInput identity_loader (Some "say") "hello" (new fresh) in
  r.1 = Normal (MainView (Some ("=== New Session Started ===" +:+ Js.nl +:+ "hello")))
  /\ transformedContext (memory (state r.2.2)) = None.
Proof.
  destruct (context_hook_output_is_not_stored identity_loader (Some "say") "hello"
              (new fresh).1 (new fresh).2) as (_ & _ & H); [reflexivity..|].
  exact H.
Defined.

(** ** The result-shape contract *)

Lemma effective_invalid (v : Js.Value) (arg : string) :
  ~ Spec.valid_shape v -> Spec.effective (Normal v) arg = arg.
Proof.
  intros Hv. destruct v as [| |b|n|s|fields]; try reflexivity.
  cbn [Spec.effective]. destruct (Js.assoc "text" fields) eqn:E; try reflexivity.
  exfalso. apply Hv. unfold Spec.valid_shape. eauto.
Qed.

Lemma valid_shape_object (v : Js.Value) :
  Spec.valid_shape v -> exists fields, v = Js.VObject fields.
Proof. intros (fields & s & -> & _). eauto. Qed.

(** C7. A hook result that is not an object with a string-typed [text]
    field makes [safeCallHook] return the original input, normally:
    [{text: 42}], [{}], and every value that is no object are such
    results. *)
Theorem invalid_shape_falls_back (L : Hook.Loader) (name arg : string) run
    (e : Emulator) (w w' : World) (v : Js.Value) :
  dispatch L name = Some run ->
  run (getHookGlobals arg) w = (Normal v, w') ->
  ~ Spec.valid_shape v ->
  safeCallHook L name arg (e, w) = (Normal arg, (with_call name arg e, w'))
  /\ ~ Spec.valid_shape (Js.VObject [("text", Js.VNumber 42)])
  /\ ~ Spec.valid_shape (Js.VObject [])
  /\ (forall u, (forall fields, u <> Js.VObject fields) -> ~ Spec.valid_shape u).
Proof.
  intros Hd Hr Hv. split.
  - rewrite (safeCallHook_run L name arg run) by done. rewrite Hr.
    cbn [fst snd Spec.hook_outcome]. by rewrite effective_invalid.
  - repeat split.
    + intros (fields & s & [= <-] & H). discriminate H.
    + intros (fields & s & [= <-] & H). discriminate H.
    + intros u Hu (fields & Hf)%valid_shape_object. by apply (Hu fields).
Qed.

Lemma invalid_shape_falls_back_witness :
  safeCallHook (Spec.constant_loader (Js.VObject [("text", Js.VNumber 42)]))
    "inputModifier" "hello" (new fresh)
  = (Normal "hello", (with_call "inputModifier" "hello" (new fresh).1, (new fresh).2)).
Proof.
  apply (invalid_shape_falls_back
           (Spec.constant_loader (Js.VObject [("text", Js.VNumber 42)]))
           "inputModifier" "hello" (fun _ => ret (Js.VObject [("text", Js.VNumber 42)]))
           (new fresh).1 (new fresh).2 (new fresh).2
           (Js.VObject [("text", Js.VNumber 42)])).
  - reflexivity.
  - reflexivity.
  - intros (fields & s & [= <-] & H). discriminate H.
Defined.

(** C8, amended.  Of the values a modifier may return, [safeCallHook] takes
    only an object with a string-typed [text] field, whose text becomes the
    hook's output; a plain string is a result of invalid shape like any
    other and gives the original input back. *)
Theorem plain_string_falls_back (L : Hook.Loader) (name arg : string) run
    (e : Emulator) (w w' : World) (v : Js.Value) :
  dispatch L name = Some run ->
  run (getHookGlobals arg) w = (Normal v, w') ->
  (forall s, v = Js.VString s ->
     safeCallHook L name arg (e, w) = (Normal arg, (with_call name arg e, w')))
  /\ (forall fields s, v = Js.VObject fields -> Js.assoc "text" fields = Js.VString s ->
        safeCallHook L name arg (e, w) = (Normal s, (with_call name arg e, w'))).
Proof.
  intros Hd Hr. rewrite (safeCallHook_run L name arg run) by done. rewrite Hr.
  cbn [fst snd Spec.hook_outcome]. split.
  - by intros s ->.
  - intros fields s -> H. cbn [Spec.effective]. by rewrite H.
Qed.

Lemma plain_string_falls_back_witness :
  safeCallHook (Spec.constant_loader (Js.VString "HELLO")) "inputModifier" "hello" (new fresh)
  = (Normal "hello", (with_call "inputModifier" "hello" (new fresh).1, (new fresh).2)).
Proof.
  apply (proj1 (plain_string_falls_back (Spec.constant_loader (Js.VString "HELLO"))
                  "inputModifier" "hello" (fun _ => ret (Js.VString "HELLO"))
                  (new fresh).1 (new fresh).2 (new fresh).2 (Js.VString "HELLO")
                  eq_refl eq_refl) "HELLO" eq_refl).
Defined.

(** C8 as worded fails: a modifier that returns the plain string "HELLO"
    for the input "hello" does not get "HELLO" accepted. *)
Lemma plain_string_is_not_accepted :
  (Hook.runInputModifier (Spec.constant_loader (Js.VString "HELLO"))
     (getHookGlobals "hello") (new fresh).2).1 = Normal (Js.VString "HELLO")
  /\ (safeCallHook (Spec.constant_loader (Js.VString "HELLO"))
        "inputModifier" "hello" (new fresh)).1 <> Normal "HELLO".
Proof. split; [reflexivity|]. vm_compute. discriminate. Qed.

(** ** The session-start entry *)







End Claims.

(** * Further properties *)

(** ** The registry: update, uniqueness of keys, positions *)

Section RegistryMore.

Import Parameters.

Lemma updateStoryCard_cases (w : World) (index : Z) (ks : list string) (e : string)
    (t : option string) :
  updateStoryCard index ks e t w =
    if bool_decide (0 <= index < len (storyCards w))
    then (Normal tt,
          set_storyCards
            <[Z.to_nat index := {| id := index; keys := ks; entry := e;
                                   type := default "general" t |}]> w)
    else (Abrupt (Js.Error "Story card does not exist"), w).
Proof.
  unfold updateStoryCard, bind, gets, modify, throw.
  case_bool_decide as H.
  - replace (index <? 0) with false by lia.
    replace (index >=? len (storyCards w)) with false by lia. reflexivity.
  - destruct (Z.ltb_spec index 0); [reflexivity|].
    replace (index >=? len (storyCards w)) with true by lia. reflexivity.
Qed.

(** X1. [updateStoryCard] on an index in range overwrites that position
    with a card whose [id] is the index, keeps the length of the registry
    and leaves every other position as it was; out of range it throws and
    changes nothing. *)
Theorem updateStoryCard_overwrites_in_place (w : World) (index : Z) (ks : list string)
    (e : string) (t : option string) :
  let r := updateStoryCard index ks e t w in
  (0 <= index < len (storyCards w) ->
     r.1 = Normal tt
     /\ length (storyCards r.2) = length (storyCards w)
     /\ storyCards r.2 !! Z.to_nat index
        = Some {| id := index; keys := ks; entry := e; type := default "general" t |}
     /\ (forall j, j <> Z.to_nat index -> storyCards r.2 !! j = storyCards w !! j)
     /\ history r.2 = history w /\ state r.2 = state w)
  /\ (~ 0 <= index < len (storyCards w) ->
      r = (Abrupt (Js.Error "Story card does not exist"), w)).
Proof.
  intros r. subst r. rewrite updateStoryCard_cases. split; intros H.
  - rewrite bool_decide_eq_true_2 by done. cbn [fst snd set_storyCards storyCards].
    split; [reflexivity|]. split; [apply length_insert|]. split.
    + apply list_lookup_insert_eq. unfold len in H. lia.
    + split; [|done]. intros j Hj. by apply list_lookup_insert_ne.
  - by rewrite bool_decide_eq_false_2.
Qed.

Lemma updateStoryCard_overwrites_in_place_witness :
  let r := updateStoryCard 1 ["c"] "C" None Spec.two_cards in
  r.1 = Normal tt
  /\ length (storyCards r.2) = 2%nat
  /\ storyCards r.2 !! 1%nat
     = Some {| id := 1; keys := ["c"]; entry := "C"; type := "general" |}.
Proof.
  intros r.
  destruct (proj1 (updateStoryCard_overwrites_in_place Spec.two_cards 1 ["c"] "C" None))
    as (H1 & H2 & H3 & _); [split; [lia | reflexivity]|].
  split; [exact H1|]. split; [exact H2|exact H3].
Defined.

Lemma unique_keys_snoc (cards : list StoryCard) (card : StoryCard) :
  Props.unique_keys cards ->
  ~ Exists (fun c => keys c = keys card) cards ->
  Props.unique_keys (cards ++ [card]).
Proof.
  unfold Props.unique_keys. intros Hu Hn. rewrite map_app. cbn [map].
  apply NoDup_app. split; [done|]. split; [|apply NoDup_singleton].
  intros ks Hin Hin'. apply list_elem_of_singleton in Hin' as ->.
  apply Hn. apply list_elem_of_fmap in Hin as (c & Hc & Hin).
  apply Exists_exists. eauto.
Qed.

(** X2. [addStoryCard] keeps the key sequences of the registry pairwise
    distinct, and never touches the cards that are already there. *)
Theorem addStoryCard_keeps_keys_unique (w : World) (ks : list string) (e : string)
    (t : option string) :
  Props.unique_keys (storyCards w) ->
  Props.unique_keys (storyCards (addStoryCard ks e t w).2)
  /\ storyCards w `prefix_of` storyCards (addStoryCard ks e t w).2.
Proof.
  intros Hu. rewrite addStoryCard_add. cbn [snd set_storyCards storyCards].
  unfold Spec.add. case_bool_decide as H; cbn [snd].
  - done.
  - split; [|by apply prefix_app_r]. by apply unique_keys_snoc.
Qed.

Lemma addStoryCard_keeps_keys_unique_witness :
  Props.unique_keys (storyCards (addStoryCard ["c"] "C" None Spec.two_cards).2).
Proof.
  apply (addStoryCard_keeps_keys_unique Spec.two_cards ["c"] "C" None).
  unfold Props.unique_keys. apply (bool_decide_unpack _). by vm_compute.
Defined.


(** X3. [removeStoryCard] on an index in range takes one card out: the
    registry is one shorter, the cards before the index stay where they
    were, every later card moves down by one position, and the key
    sequences stay pairwise distinct. *)
Theorem removeStoryCard_shifts_positions (w : World) (index : Z) :
  0 <= index < len (storyCards w) ->
  let r := removeStoryCard index w in
  r.1 = Normal tt
  /\ S (length (storyCards r.2)) = length (storyCards w)
  /\ (forall j, (j < Z.to_nat index)%nat -> storyCards r.2 !! j = storyCards w !! j)
  /\ (forall j, (Z.to_nat index <= j)%nat -> storyCards r.2 !! j = storyCards w !! S j)
  /\ (Props.unique_keys (storyCards w) -> Props.unique_keys (storyCards r.2))
  /\ history r.2 = history w /\ state r.2 = state w.
Proof.
  intros H r. subst r. rewrite removeStoryCard_cases, bool_decide_eq_true_2 by done.
  cbn [fst snd set_storyCards storyCards history state].
  split; [reflexivity|]. split.
  { rewrite length_delete; [|apply lookup_lt_is_Some; unfold len in H; lia].
    unfold len in H. lia. }
  split; [intros j Hj; by apply list_lookup_delete_lt|].
  split; [intros j Hj; by apply list_lookup_delete_ge|].
  split; [|done]. unfold Props.unique_keys. intros Hu.
  change (map keys ?l) with (keys <$> l). rewrite list_fmap_delete.
  eapply sublist_NoDup; [exact Hu|apply sublist_delete].
Qed.

Lemma removeStoryCard_shifts_positions_witness :
  S (length (storyCards (removeStoryCard 0 Spec.two_cards).2))
  = length (storyCards Spec.two_cards).
Proof.
  apply (removeStoryCard_shifts_positions Spec.two_cards 0).
  split; [lia | reflexivity].
Defined.

(** X4. [updateStoryCard] does not look for duplicates: given the key
    sequence of a card at another position it leaves two cards with the
    same keys, in a registry whose keys are then no longer pairwise
    distinct. *)
Theorem updateStoryCard_can_duplicate_keys (w : World) (index : Z) (j : nat)
    (card : StoryCard) (e : string) (t : option string) :
  0 <= index < len (storyCards w) ->
  j <> Z.to_nat index ->
  storyCards w !! j = Some card ->
  let w' := (updateStoryCard index (keys card) e t w).2 in
  keys <$> storyCards w' !! Z.to_nat index = Some (keys card)
  /\ keys <$> storyCards w' !! j = Some (keys card)
  /\ ~ Props.unique_keys (storyCards w').
Proof.
  intros H Hj Hc w'. subst w'.
  rewrite updateStoryCard_cases, bool_decide_eq_true_2 by done.
  cbn [snd set_storyCards storyCards].
  assert (Z.to_nat index < length (storyCards w))%nat as Hlt
    by (unfold len in H; lia).
  split; [by rewrite list_lookup_insert_eq|].
  split; [by rewrite list_lookup_insert_ne, Hc|].
  unfold Props.unique_keys. intros Hu.
  apply Hj. symmetry.
  eapply (proj1 (NoDup_alt _) Hu (Z.to_nat index) j (keys card)).
  - change (map keys ?l) with (keys <$> l). rewrite list_lookup_fmap.
    by rewrite list_lookup_insert_eq.
  - change (map keys ?l) with (keys <$> l). rewrite list_lookup_fmap.
    by rewrite list_lookup_insert_ne, Hc.
Qed.

Lemma updateStoryCard_can_duplicate_keys_witness :
  ~ Props.unique_keys (storyCards (updateStoryCard 1 ["a"] "B" None Spec.two_cards).2).
Proof.
  apply (updateStoryCard_can_duplicate_keys Spec.two_cards 1 0
           {| id := 0; keys := ["a"]; entry := "A"; type := "general" |} "B" None).
  - split; [lia | reflexivity].
  - discriminate.
  - reflexivity.
Defined.

(** X5. [addStoryCard] and [updateStoryCard] keep every card's [id] equal
    to its position. *)
Theorem add_and_update_keep_ids (w : World) (index : Z) (ks : list string)
    (e : string) (t : option string) :
  Props.ids_are_positions (storyCards w) ->
  Props.ids_are_positions (storyCards (addStoryCard ks e t w).2)
  /\ Props.ids_are_positions (storyCards (updateStoryCard index ks e t w).2).
Proof.
  intros Hid. split.
  - rewrite addStoryCard_add. cbn [snd set_storyCards storyCards].
    unfold Spec.add. case_bool_decide as H; cbn [snd]; [done|].
    intros i card Hi. apply lookup_app_Some in Hi as [Hi|[Hlen Hi]]; [by apply Hid|].
    apply list_lookup_singleton_Some in Hi as [Hi <-]. cbn [id]. f_equal. lia.
  - rewrite updateStoryCard_cases. case_bool_decide as H; [|done].
    cbn [snd set_storyCards storyCards]. intros i card Hi.
    destruct (decide (i = Z.to_nat index)) as [->|Hne].
    + rewrite list_lookup_insert_eq in Hi by (unfold len in H; lia).
      injection Hi as <-. cbn [id]. lia.
    + rewrite list_lookup_insert_ne in Hi by done. by apply Hid.
Qed.

Lemma ids_are_positions_nil : Props.ids_are_positions [].
Proof. intros i card H. discriminate H. Defined.

Lemma add_and_update_keep_ids_witness :
  Props.ids_are_positions (storyCards (addStoryCard ["a"] "A" None fresh).2).
Proof.
  apply (add_and_update_keep_ids fresh 0 ["a"] "A" None). apply ids_are_positions_nil.
Defined.

(** X6. Removing the card that [addStoryCard] has just added, at the index
    it returned, gives the world back as it was. *)
Theorem add_then_remove_restores (w : World) (ks : list string) (e : string)
    (t : option string) (i : Z) :
  (addStoryCard ks e t w).1 = Normal (Js.VNumber i) ->
  removeStoryCard i (addStoryCard ks e t w).2 = (Normal tt, w).
Proof.
  rewrite addStoryCard_add. cbn [fst snd]. unfold Spec.add.
  case_bool_decide as H; cbn [fst snd]; [discriminate|].
  intros [= <-]. rewrite removeStoryCard_cases. cbn [set_storyCards storyCards].
  rewrite bool_decide_eq_true_2 by (unfold len; rewrite length_app; cbn; lia).
  cbn [set_storyCards storyCards history state]. f_equal.
  rewrite Nat2Z.id. destruct w as [h cards st]. unfold set_storyCards.
  cbn [storyCards history state]. f_equal.
  by rewrite (delete_middle cards []), app_nil_r.
Qed.

Lemma add_then_remove_restores_witness :
  removeStoryCard 2 (addStoryCard ["c"] "C" None Spec.two_cards).2
  = (Normal tt, Spec.two_cards).
Proof.
  apply (add_then_remove_restores Spec.two_cards ["c"] "C" None 2). reflexivity.
Defined.

End RegistryMore.

(** ** The turn engine: blank input, AI turns, sides *)

Section EngineMore.

Import Parameters Emulator.

Lemma trimEnd_keeps_head (c : ascii) (t : string) :
  Js.is_space c = false -> Js.trimEnd (String c t) <> "".
Proof.
  intros Hc. cbn [Js.trimEnd]. rewrite Hc. by destruct (Js.trimEnd t).
Qed.

Lemma trimStart_all_space (s : string) :
  Props.all_space s = true -> Js.trimStart s = "".
Proof.
  induction s as [|c s IH]; [reflexivity|]. cbn [Props.all_space Js.trimStart].
  intros [Hc Hs]%andb_true_iff. rewrite Hc. by apply IH.
Qed.

Lemma trim_not_all_space (s : string) :
  Props.all_space s = false -> Js.trim s <> "".
Proof.
  unfold Js.trim. induction s as [|c s IH]; [discriminate|].
  cbn [Props.all_space Js.trimStart]. destruct (Js.is_space c) eqn:Hc.
  - cbn [andb]. apply IH.
  - intros _. by apply trimEnd_keeps_head.
Qed.

(** [!text.trim()] holds exactly of the texts made of white space. *)
Lemma non_blank_iff (text : string) :
  Spec.non_blank text <-> Props.all_space text = false.
Proof.
  unfold Spec.non_blank. destruct (Props.all_space text) eqn:E.
  - unfold Js.trim. rewrite trimStart_all_space by done. split; discriminate.
  - split; [done|]. intros _. apply trim_not_all_space in E.
    by destruct (Js.trim text).
Qed.

(** X7. A text made of white space only (spaces, tabs, line breaks, the
    empty text) is ignored: no hook is called, history, story cards, state
    and [currentSide] stay as they are, and the page is not rendered. *)
Theorem blank_input_is_ignored (L : Hook.Loader) (mode : option string)
    (text : string) (m : Machine) :
  Props.all_space text = true ->
  handleInput L mode text m = (Normal Ignored, m)
  /\ View.page_after L mode text m = None.
Proof.
  intros Hb.
  assert (handleInput L mode text m = (Normal Ignored, m)) as H.
  { apply handleInput_blank. rewrite non_blank_iff. by rewrite Hb. }
  split; [exact H|]. unfold View.page_after. by rewrite H.
Qed.

Lemma blank_input_is_ignored_witness :
  handleInput identity_loader (Some "say") "   " (new fresh)
  = (Normal Ignored, new fresh).
Proof.
  apply (blank_input_is_ignored identity_loader (Some "say") "   " (new fresh)).
  reflexivity.
Defined.



(** A turn whose context hook did not throw a value without a string form
    changes sides. *)
Lemma flip_side (L : Hook.Loader) mode text (m : Machine) :
  Spec.printable_throws L -> Spec.non_blank text ->
  currentSide (handleInput L mode text m).2.1 = Spec.flip (currentSide m.1).
Proof.
  intros Hp Hnb. destruct m as [e w]. destruct (in_hooks L) as (_ & Hc & _).
  destruct (currentSide e) eqn:Hs.
  - rewrite handleInput_user by done.
    rewrite (hook_outcome_printable _ _ (Hp _ Hc _ _)). cbn. by rewrite Hs.
  - rewrite handleInput_ai by done. cbn. by rewrite Hs.
Qed.

Lemma side_after_S (s : Side) (n : nat) :
  Props.side_after s (S n) = Props.side_after (Spec.flip s) n.
Proof.
  unfold Props.side_after. rewrite Nat.even_succ, <- Nat.negb_even.
  destruct (Nat.even n), s; reflexivity.
Qed.

(** X10. With hooks whose throws have a string form the sides alternate:
    after any run of calls the side is the starting side when an even
    number of the inputs were not blank, and the other side otherwise. *)
Theorem sides_alternate (L : Hook.Loader) (inputs : list (option string * string))
    (m : Machine) :
  Spec.printable_throws L ->
  currentSide (turns L inputs m).1
  = Props.side_after (currentSide m.1) (length (Props.valid_inputs inputs)).
Proof.
  intros Hp. revert m. induction inputs as [|[mode text] inputs IH]; intros m; [reflexivity|].
  cbn [turns]. rewrite IH. unfold Props.valid_inputs. rewrite filter_cons. cbn [snd].
  destruct (Props.all_space text) eqn:E.
  - rewrite decide_False by discriminate.
    rewrite handleInput_blank; [reflexivity|]. rewrite non_blank_iff. by rewrite E.
  - rewrite decide_True by reflexivity. cbn [length]. rewrite side_after_S.
    rewrite flip_side; [reflexivity|done|]. by apply non_blank_iff.
Qed.

Lemma sides_alternate_witness :
  currentSide
    (turns identity_loader [(Some "say", "hello"); (None, "  "); (None, "world");
                            (Some "do", "open the door")] (new fresh)).1
  = ai.
Proof.
  apply (sides_alternate identity_loader
           [(Some "say", "hello"); (None, "  "); (None, "world");
            (Some "do", "open the door")] (new fresh) printable_throws_identity).
Defined.






Lemma dispatch_in_hooks (L : Hook.Loader) (name : string) run :
  dispatch L name = Some run -> run ∈ Spec.hooks L.
Proof.
  destruct (in_hooks L) as (Hi & Hc & Ho). unfold dispatch.
  destruct (String.eqb name "inputModifier"); [by intros [= <-]|].
  destruct (String.eqb name "contextModifier"); [by intros [= <-]|].
  destruct (String.eqb name "outputModifier"); [by intros [= <-]|discriminate].
Qed.

(** X26. With hooks whose throws have a string form, as every [Error]
    has, failures are contained: a hook call that ends abruptly, by a throw
    in the script or by a failed load, counts as the unmodified input for
    that hook and [safeCallHook] returns; and a turn on non-blank text
    completes: [handleInput] returns, [currentSide] flips, and the engine
    pushes exactly one entry onto the history that the turn's first hook
    left, the entry holding the original input when that hook failed. *)
Theorem printable_failure_is_contained (L : Hook.Loader) (mode : option string)
    (text : string) (e : Emulator) (w : World) :
  Spec.printable_throws L -> Spec.non_blank text ->
  (forall name run arg e0 w0 ex w1,
     dispatch L name = Some run ->
     run (getHookGlobals arg) w0 = (Abrupt ex, w1) ->
     safeCallHook L name arg (e0, w0) = (Normal arg, (with_call name arg e0, w1)))
  /\ exists view m' entry pushed,
       handleInput L mode text (e, w) = (Normal view, m')
       /\ currentSide m'.1 = Spec.flip (currentSide e)
       /\ history pushed
          = history (Spec.first_hook L (currentSide e) (getHookGlobals text) w).2 ++ [entry]
       /\ (m'.2 = pushed \/ exists g, m'.2 = (Hook.runContextModifier L g pushed).2)
       /\ (forall ex w1,
             Spec.first_hook L (currentSide e) (getHookGlobals text) w = (Abrupt ex, w1) ->
             entry = {| mode := ""; text := Some text |})
       /\ (Spec.keeps_history L -> history m'.2 = history w ++ [entry]).
Proof.
  intros Hp Hnb. split.
  - intros name run arg e0 w0 ex w1 Hd Hr.
    rewrite (safeCallHook_run L name arg run) by done.
    pose proof (Hp _ (dispatch_in_hooks L name run Hd) (getHookGlobals arg) w0) as Hpr.
    rewrite hook_outcome_printable by done. by rewrite Hr.
  - destruct (in_hooks L) as (Hi & Hc & Ho). destruct (currentSide e) eqn:Hs.
    + rewrite handleInput_user by done.
      rewrite (stored_printable _ _ (Hp _ Hi (getHookGlobals text) w)).
      rewrite (hook_outcome_printable _ _ (Hp _ Hc _ _)).
      do 4 eexists.
      split; [reflexivity|]. split; [reflexivity|]. cbn [fst snd Spec.first_hook].
      split; [apply history_for_context|]. split; [right; eauto|]. split.
      * intros ex w1 H. by rewrite H.
      * intros Hk. by rewrite (Hk _ Hc), history_for_context, (Hk _ Hi).
    + rewrite handleInput_ai by done.
      rewrite (stored_printable _ _ (Hp _ Ho (getHookGlobals text) w)).
      eexists _, _, _,
        (set_history
           (push {| mode := "";
                    text := Some (Spec.effective
                              (Hook.runOutputModifier L (getHookGlobals text) w).1 text) |})
           (Hook.runOutputModifier L (getHookGlobals text) w).2).
      split; [reflexivity|]. split; [reflexivity|]. cbn [fst snd Spec.first_hook].
      split; [reflexivity|]. split; [by left|]. split.
      * intros ex w1 H. by rewrite H.
      * intros Hk. cbn [set_history history push]. by rewrite (Hk _ Ho).
Qed.

(** Hooks that throw an [Error], on the first turn of a session: the turn
    completes with the input "hello" stored as it came. *)
Lemma printable_failure_is_contained_witness :
  exists view m',
    handleInput (Spec.throwing_loader (Js.Error "boom")) (Some "say") "hello" (new fresh)
    = (Normal view, m')
    /\ currentSide m'.1 = ai
    /\ history m'.2 = [Spec.start_entry; {| mode := ""; text := Some "hello" |}].
Proof.
  destruct (printable_failure_is_contained (Spec.throwing_loader (Js.Error "boom"))
              (Some "say") "hello" (new fresh).1 (new fresh).2
              (printable_throws_throwing "Error" "boom"))
    as (_ & view & m' & entry & pushed & H & Hside & _ & _ & Hentry & Hhist);
    [reflexivity|].
  exists view, m'. split; [exact H|]. split; [exact Hside|].
  rewrite (Hhist (keeps_history_throwing _)).
  by rewrite (Hentry (Js.Error "boom") (new fresh).2 eq_refl).
Defined.

End EngineMore.

(** ** The page: escaping and the two views *)

Section ViewMore.

Import Parameters Emulator.

Lemma escapeHtml_cons (c : ascii) (s : string) :
  View.escapeHtml (Some (String c s)) = Props.escape_char c +:+ View.escapeHtml (Some s).
Proof. destruct c as [[] [] [] [] [] [] [] []]; reflexivity. Qed.

Lemma escapeHtml_escape (s : string) :
  View.escapeHtml (Some s) = Props.escape s.
Proof.
  induction s as [|c s IH]; [reflexivity|].
  rewrite escapeHtml_cons, IH. reflexivity.
Qed.

(** X13. The four replacements of [escapeHtml], done one after the other,
    come to one pass over the text that turns [&], [<], [>] and the line
    break into [&amp;], [&lt;], [&gt;] and [<br>]: no replacement is
    escaped again by a later one. *)
Theorem escapeHtml_is_one_pass (s : string) :
  View.escapeHtml (Some s) = Props.escape s
  /\ View.escapeHtml None = "".
Proof. split; [apply escapeHtml_escape | reflexivity]. Qed.

Lemma unescape_escape_char (c : ascii) (k : string) :
  Props.unescape (Props.escape_char c +:+ k) = String c (Props.unescape k).
Proof. destruct c as [[] [] [] [] [] [] [] []]; reflexivity. Qed.

Lemma unescape_escape (s : string) : Props.unescape (Props.escape s) = s.
Proof.
  induction s as [|c s IH]; [reflexivity|].
  cbn [Props.escape]. by rewrite unescape_escape_char, IH.
Qed.

(** X14. [escapeHtml] loses nothing: the text can be read back from its
    escaped form, so two different texts never escape to the same
    markup. *)
Theorem escapeHtml_round_trip :
  (forall s, Props.unescape (View.escapeHtml (Some s)) = s)
  /\ (forall s1 s2, View.escapeHtml (Some s1) = View.escapeHtml (Some s2) -> s1 = s2).
Proof.
  assert (forall s, Props.unescape (View.escapeHtml (Some s)) = s) as H.
  { intros s. rewrite escapeHtml_escape. apply unescape_escape. }
  split; [exact H|]. intros s1 s2 E. by rewrite <- (H s1), <- (H s2), E.
Qed.


Lemma escape_app (a b : string) :
  Props.escape (a +:+ b) = Props.escape a +:+ Props.escape b.
Proof.
  induction a as [|c a IH]; [reflexivity|].
  rewrite append_cons. cbn [Props.escape]. by rewrite IH, append_assoc.
Qed.

Lemma join_escape (lines : list string) :
  Js.join "<br>" (map (fun line => View.escapeHtml (Some line)) lines)
  = View.escapeHtml (Some (Js.join Js.nl lines)).
Proof.
  rewrite escapeHtml_escape.
  induction lines as [|x [|y lines] IH].
  - reflexivity.
  - cbn [map Js.join String.concat]. apply escapeHtml_escape.
  - change (Js.join Js.nl (x :: y :: lines)) with (x +:+ Js.nl +:+ Js.join Js.nl (y :: lines)).
    change (Js.join "<br>" (map ?f (x :: y :: lines)))
      with (f x +:+ "<br>" +:+ Js.join "<br>" (map f (y :: lines))).
    rewrite IH, !escape_app, escapeHtml_escape. reflexivity.
Qed.

Lemma slice_last_map {A B} (f : A -> B) (n : nat) (l : list A) :
  View.slice_last n (map f l) = map f (View.slice_last n l).
Proof.
  unfold View.slice_last. rewrite length_map.
  change (map f ?x) with (f <$> x). by rewrite fmap_drop.
Qed.

(** X15. The user view is the escaped text of the last hundred history
    entries joined by line breaks, between its heading and its closing
    white space: the [<br>] that separates two entries is the one that a
    line break inside an entry turns into. *)
Theorem buildUserView_is_escaped_join (w : World) :
  View.buildUserView w
  = Js.nl +:+ "            <b>User View (last 100):</b><br>" +:+ Js.nl +:+ "            "
    +:+ View.escapeHtml (Some (Spec.joined_text (View.slice_last 100 (history w))))
    +:+ Js.nl +:+ "        ".
Proof.
  unfold View.buildUserView, Spec.joined_text, View.maxEntries.
  by rewrite join_escape, slice_last_map.
Qed.

(** X16. The user view shows the last hundred entries only: whatever older
    entries come before a history of a hundred or more, the view is the
    same. *)
Theorem buildUserView_shows_last_hundred (w : World) (older : list HistoryEntry) :
  (100 <= length (history w))%nat ->
  View.buildUserView (set_history (app older) w) = View.buildUserView w.
Proof.
  intros H. unfold View.buildUserView, View.maxEntries, View.slice_last.
  cbn [set_history history]. rewrite map_app, !length_app, !length_map.
  rewrite drop_app_ge.
  2:{ rewrite length_map. lia. }
  rewrite length_map.
  replace (length older + length (history w) - 100 - length older)%nat
    with (length (history w) - 100)%nat by lia.
  reflexivity.
Qed.

Lemma buildUserView_shows_last_hundred_witness :
  let w := set_history (fun _ => replicate 100 Spec.start_entry) fresh in
  View.buildUserView
    (set_history (app [{| mode := ""; text := Some "long ago" |}]) w)
  = View.buildUserView w.
Proof.
  intros w.
  apply (buildUserView_shows_last_hundred w [{| mode := ""; text := Some "long ago" |}]).
  cbn [w set_history history]. rewrite length_replicate. lia.
Defined.




End ViewMore.

(** ** The loaders *)

Section LoaderMore.

Import Sandbox.





(** X27. Loader.js rewrites every hook file that ends in the call: for a
    file made of any text followed by the call [modifier(text)], however
    the call is written, the replacement turns the call into
    [return modifier(text);] and keeps the text before it whole, also when
    that text holds calls of its own, and the body handed to
    [new Function] holds the rewritten text. *)
Theorem replace_rewrites_final_call (g : Hook.Globals) (lib decls : string)
    (c : CallSyntax) :
  Loader.replace_trailing_call (decls +:+ render_call c)
  = decls +:+ "return modifier(text);"
  /\ Loader.sandboxSource (Loader.globalsCode g) lib
       (Loader.replace_trailing_call (decls +:+ render_call c))
     = Loader.sandboxSource (Loader.globalsCode g) lib (decls +:+ "return modifier(text);")
  /\ Loader.replace_trailing_call ("modifier(text);" +:+ Js.nl +:+ "modifier( text ) ;")
     = "modifier(text);" +:+ Js.nl +:+ "return modifier(text);".
Proof.
  split; [apply replace_trailing_call_render|]. split; [|reflexivity].
  by rewrite replace_trailing_call_render.
Qed.

(** X20. Loader.js reports a failed load before any script runs: when the
    library answers without [ok] the error names Library.js, even if the
    hook file failed too; when only the hook file answers without [ok] the
    error names its path.  The world is untouched, and the turn engine over
    this loader then passes the text on unchanged. *)
Theorem Loader_reports_failed_load (browser : Hook.Browser) (path : string)
    (g : Hook.Globals) (w : Parameters.World) (lib resp : Hook.Response) :
  Hook.fetch browser "../Script/Library.js" = Normal lib ->
  Hook.fetch browser path = Normal resp ->
  Hook.ok lib && Hook.ok resp = false ->
  Loader.loadModifier browser path g w
  = (Abrupt (Js.Error (if Hook.ok lib
                       then "Failed to load " +:+ path +:+ ": " +:+ Hook.statusText resp
                       else "Failed to load Library.js: " +:+ Hook.statusText lib)), w)
  /\ (path = "../Script/Input.js" ->
      forall e,
        Emulator.safeCallHook (Loader.exports browser) "inputModifier" (Hook.text g) (e, w)
        = (Normal (Hook.text g),
           (Emulator.with_call "inputModifier" (Hook.text g) e, w))).
Proof.
  intros Hl Hr Hok.
  assert (Loader.loadModifier browser path g w
          = (Abrupt (Js.Error (if Hook.ok lib
                       then "Failed to load " +:+ path +:+ ": " +:+ Hook.statusText resp
                       else "Failed to load Library.js: " +:+ Hook.statusText lib)), w)) as H.
  { unfold Loader.loadModifier, bind, Hook.await, throw. rewrite Hl, Hr.
    destruct (Hook.ok lib); [|reflexivity]. cbn in Hok. by rewrite Hok. }
  split; [exact H|]. intros -> e.
  rewrite (safeCallHook_run (Loader.exports browser) "inputModifier" (Hook.text g)
             (Loader.runInputModifier browser)) by reflexivity.
  unfold Loader.runInputModifier, Emulator.getHookGlobals. destruct g as [t].
  cbn [Hook.text] in *. by rewrite H.
Qed.

Lemma Loader_reports_failed_load_witness :
  let browser :=
    {| Hook.fetch := fun path =>
         Normal {| Hook.ok := String.eqb path "../Script/Library.js";
                   Hook.statusText := "Not Found"; Hook.body := "" |};
       Hook.evaluate := fun _ _ => ret Js.VUndefined |} in
  Loader.loadModifier browser "../Script/Input.js" {| Hook.text := "hello" |} Parameters.fresh
  = (Abrupt (Js.Error "Failed to load ../Script/Input.js: Not Found"), Parameters.fresh).
Proof.
  intros browser.
  apply (Loader_reports_failed_load browser "../Script/Input.js" {| Hook.text := "hello" |}
           Parameters.fresh
           {| Hook.ok := true; Hook.statusText := "Not Found"; Hook.body := "" |}
           {| Hook.ok := false; Hook.statusText := "Not Found"; Hook.body := "" |});
    reflexivity.
Defined.

(** X21. sandboxLoader.js reports a failed load in the same way, from its
    own paths: the library first, then the hook file, the world
    untouched. *)
Theorem SandboxLoader_reports_failed_load (browser : Hook.Browser) (path : string)
    (g : Hook.Globals) (w : Parameters.World) (lib resp : Hook.Response) :
  Hook.fetch browser "./Library.js" = Normal lib ->
  Hook.fetch browser path = Normal resp ->
  Hook.ok lib && Hook.ok resp = false ->
  SandboxLoader.loadModifier browser path g w
  = (Abrupt (Js.Error (if Hook.ok lib
                       then "Failed to load " +:+ path +:+ ": " +:+ Hook.statusText resp
                       else "Failed to load Library.js: " +:+ Hook.statusText lib)), w).
Proof.
  intros Hl Hr Hok.
  unfold SandboxLoader.loadModifier, bind, Hook.await, throw. rewrite Hl, Hr.
  destruct (Hook.ok lib); [|reflexivity]. cbn in Hok. by rewrite Hok.
Qed.

Lemma SandboxLoader_reports_failed_load_witness :
  let browser :=
    {| Hook.fetch := fun path =>
         Normal {| Hook.ok := false; Hook.statusText := "Not Found"; Hook.body := "" |};
       Hook.evaluate := fun _ _ => ret Js.VUndefined |} in
  SandboxLoader.loadModifier browser "./Input.js" {| Hook.text := "hello" |} Parameters.fresh
  = (Abrupt (Js.Error "Failed to load Library.js: Not Found"), Parameters.fresh).
Proof.
  intros browser.
  apply (SandboxLoader_reports_failed_load browser "./Input.js" {| Hook.text := "hello" |}
           Parameters.fresh
           {| Hook.ok := false; Hook.statusText := "Not Found"; Hook.body := "" |}
           {| Hook.ok := false; Hook.statusText := "Not Found"; Hook.body := "" |});
    reflexivity.
Defined.

End LoaderMore.

(** ** Sessions: calls and entries *)

Section SessionMore.

Import Parameters Emulator.






Lemma first_hook_in_hooks (L : Hook.Loader) (s : Side) : Spec.first_hook L s ∈ Spec.hooks L.
Proof. destruct (in_hooks L) as (Hi & _ & Ho). by destruct s. Qed.

(** X25. In a session with hooks that leave history alone and whose throws
    have a string form, history is the session-start entry followed by one
    entry for each non-blank input, and the text of every one of them is a
    string: with such hooks no [undefined] text is stored. *)
Theorem session_entries_have_text (L : Hook.Loader)
    (inputs : list (option string * string)) :
  Spec.keeps_history L -> Spec.printable_throws L ->
  exists entries,
    history (turns L inputs (new fresh)).2 = Spec.start_entry :: entries
    /\ length entries = length (Props.valid_inputs inputs)
    /\ Forall Props.turn_entry entries.
Proof.
  intros Hk Hp.
  assert (forall m entries,
            history m.2 = Spec.start_entry :: entries -> Forall Props.turn_entry entries ->
            exists entries',
              history (turns L inputs m).2 = Spec.start_entry :: entries'
              /\ length entries'
                 = (length entries + length (Props.valid_inputs inputs))%nat
              /\ Forall Props.turn_entry entries') as H.
  { induction inputs as [|[mode text] inputs IH]; intros m entries Hh Hf.
    { exists entries. cbn. split; [done|]. split; [lia|done]. }
    cbn [turns]. unfold Props.valid_inputs. rewrite filter_cons. cbn [snd].
    destruct (Props.all_space text) eqn:E.
    - rewrite decide_False by discriminate.
      rewrite handleInput_blank by (rewrite non_blank_iff; by rewrite E). eauto.
    - rewrite decide_True by reflexivity.
      assert (Spec.non_blank text) as Hnb by by apply non_blank_iff.
      destruct (handleInput_history L mode text m Hk Hnb) as (entry & Ht & Hentry).
      rewrite stored_printable in Hentry by apply (Hp _ (first_hook_in_hooks L _)).
      destruct (IH (handleInput L mode text m).2 (entries ++ [entry]))
        as (entries' & H1 & H2 & H3).
      + by rewrite Ht, Hh.
      + apply Forall_app. split; [done|]. repeat constructor. unfold Props.turn_entry. eauto.
      + exists entries'. split; [done|]. split; [|done].
        rewrite H2, length_app. cbn. unfold Props.valid_inputs. lia. }
  destruct (H (new fresh) []) as (entries & H1 & H2 & H3); [done..|]. eauto.
Qed.

Lemma session_entries_have_text_witness :
  exists entries,
    history (turns identity_loader [(Some "say", "hello"); (None, "world")] (new fresh)).2
    = Spec.start_entry :: entries
    /\ length entries = 2%nat
    /\ Forall Props.turn_entry entries.
Proof.
  apply (session_entries_have_text identity_loader
           [(Some "say", "hello"); (None, "world")] keeps_history_identity
           printable_throws_identity).
Defined.

End SessionMore.
